(** * LLeaky: adaptive recurrent leaky integrate-and-fire layer

    A shallow embedding of [drl/LSNN/lleaky.py].  Tensors are modelled as
    one-dimensional arrays of exact rationals ([Qc]); rounding, overflow,
    autograd and device placement are outside this model.  Where a property
    depends on a value being finite (a difference [x - x], a product
    [0 * x]) it is stated on binary32 numbers instead, one unit at a time.
    The layer object is a record of
    its attributes, methods that only read [self] are functions of the
    record, and [__init__], [forward] and [reset_hidden] pass the object
    explicitly, keeping whatever was written before an exception. *)

From Stdlib Require Import String List ZArith QArith Qcanon Bool Lia.
Import ListNotations.

(** ** Exceptions and results *)

(** Python's exception classes as the layer meets them;
    [ConfigurationError] is the specification's name for what the base
    class raises on a bad argument, and [ModuleError] stands for whatever a
    torch module raises inside its own forward pass. *)
Inductive exn : Type :=
| TypeError (msg : string)
| AttributeError (name : string)
| UnboundLocalError (name : string)
| ZeroDivisionError
| RuntimeError (msg : string)
| ConfigurationError (msg : string)
| ModuleError (name : string).

Inductive outcome (A : Type) : Type :=
| Return (a : A)
| Raise (e : exn).

Arguments Return {A} a.
Arguments Raise {A} e.

Definition obind {A B : Type} (c : outcome A) (k : A -> outcome B) : outcome B :=
  match c with
  | Return a => k a
  | Raise e => Raise e
  end.

Notation "'let*' x ':=' c 'in' k" := (obind c (fun x => k))
  (at level 10, x name, c at level 100, k at level 200).

(** ** Tensors and Python values *)

(** The elements are exact rationals: every value is finite and no
    operation rounds. *)
Definition tensor : Type := list Qc.

(** The values that reach [forward]'s state arguments: the default [False],
    or a tensor.  A [_SpikeTensor] is a tensor that carries the attribute
    [init_flag]; [hasattr(x, "init_flag")] is the first field. *)
Inductive pyval : Type :=
| PyFalse
| Tensor (has_init_flag : bool) (data : tensor).

Definition hasattr_init_flag (x : pyval) : bool :=
  match x with
  | PyFalse => false
  | Tensor f _ => f
  end.

Definition is_False (x : pyval) : bool :=
  match x with
  | PyFalse => true
  | Tensor _ _ => false
  end.

(** A Python [False] enters [+] and [*] as the number 0. *)
Definition operand (x : pyval) : tensor :=
  match x with
  | PyFalse => [0%Qc]
  | Tensor _ d => d
  end.

Definition T (d : tensor) : pyval := Tensor false d.

Definition Qc_leb (x y : Qc) : bool := Qle_bool x y.

(** [torch.clamp(x, lo, hi)] on one element: [min(max(x, lo), hi)]. *)
Definition clamp1 (lo hi x : Qc) : Qc :=
  let y := if Qc_leb x lo then lo else x in
  if Qc_leb hi y then hi else y.

Definition clamp (lo hi : Qc) (x : tensor) : tensor := map (clamp1 lo hi) x.

Fixpoint zip_with (f : Qc -> Qc -> Qc) (x y : tensor) : tensor :=
  match x, y with
  | a :: x', c :: y' => f a c :: zip_with f x' y'
  | _, _ => []
  end.

Definition shape_msg : string := "The size of tensor a must match the size of tensor b".

(** Elementwise binary operation with torch's broadcasting on
    one-dimensional tensors: equal sizes, or one side of size 1. *)
Definition broadcast2 (f : Qc -> Qc -> Qc) (x y : tensor) : outcome tensor :=
  if Nat.eqb (length x) (length y) then Return (zip_with f x y)
  else match x, y with
       | [a], _ => Return (map (f a) y)
       | _, [c] => Return (map (fun a => f a c) x)
       | _, _ => Raise (RuntimeError shape_msg)
       end.

Definition tadd (x y : pyval) : outcome pyval :=
  let* r := broadcast2 Qcplus (operand x) (operand y) in Return (T r).

Definition tmul (x y : pyval) : outcome pyval :=
  let* r := broadcast2 Qcmult (operand x) (operand y) in Return (T r).

Definition bool_sub_msg : string :=
  "Subtraction, the `-` operator, with a bool tensor is not supported.".

(** torch refuses [-] when an operand is a boolean. *)
Definition tsub (x y : pyval) : outcome pyval :=
  match x, y with
  | Tensor _ dx, Tensor _ dy =>
      let* r := broadcast2 Qcminus dx dy in Return (T r)
  | _, _ => Raise (RuntimeError bool_sub_msg)
  end.

(** A Python or numpy number against a tensor. *)
Definition scalar (c : Qc) : pyval := T [c].

Definition zeros_like (x : tensor) : pyval := T (map (fun _ => 0%Qc) x).

(** The element a tensor contributes at position [i] of a broadcast
    result: its only element when it has size 1, its [i]-th otherwise. *)
Definition at_ (x : tensor) (i : nat) : Qc :=
  nth (if Nat.eqb (length x) 1 then 0%nat else i) x 0%Qc.

Definition in_range (x : tensor) (i : nat) : Prop :=
  (i < length x)%nat \/ length x = 1%nat.

(** The element of a value at a unit, and the units a value covers. *)
Definition elem (v : pyval) (i : nat) : Qc := at_ (operand v) i.
Definition covers (v : pyval) (i : nat) : Prop := in_range (operand v) i.

(** The size of a broadcast result. *)
Definition broadcast_size (n m : nat) : nat :=
  if Nat.eqb n m then n else if Nat.eqb n 1 then m else n.

(** ** The layer object *)

Inductive kernel : Type :=
| KInt (k : Z)
| KPair (k0 k1 : Z).

(** [self.recurrent]: a torch module built from its constructor arguments,
    or the [RecurrentOneToOne] of this file. *)
Inductive Recurrent : Type :=
| Linear (in_features out_features : Z)
| Conv2d (in_channels out_channels : Z) (kernel_size : kernel) (padding : Z * Z)
| RecurrentOneToOne (V : tensor).

(** Attributes left by the base class constructor. *)
Record ALIF_attrs : Type := {
  base_beta : tensor;
  base_threshold : tensor;
  base_init_hidden : bool;
  base_inhibition : bool;
  base_reset_mechanism_val : Z;
  base_state_quant : option (pyval -> pyval);
  base_output : bool
}.

(** The attributes of one [LLeaky] object.  An attribute that has not been
    assigned yet is [None]. *)
Record LLeaky : Type := {
  self_base : ALIF_attrs;
  self_all_to_all : bool;
  self_learn_recurrent : bool;
  self_linear_features : option Z;
  self_kernel_size : option kernel;
  self_conv2d_channels : option Z;
  self_rho_b : Qc;
  self_thresh_beta : Qc;
  self_V : option tensor;
  self_padding : option (Z * Z);
  self_recurrent : option Recurrent;
  self_recurrent_requires_grad : bool;
  self_spk : option pyval;
  self_mem : option pyval;
  self_b : option pyval;
  self_reset : option pyval
}.

Definition self_beta (self : LLeaky) : tensor := base_beta (self_base self).
Definition self_threshold (self : LLeaky) : tensor := base_threshold (self_base self).
Definition self_init_hidden (self : LLeaky) : bool := base_init_hidden (self_base self).
Definition self_inhibition (self : LLeaky) : bool := base_inhibition (self_base self).
Definition self_reset_mechanism_val (self : LLeaky) : Z :=
  base_reset_mechanism_val (self_base self).
Definition self_state_quant (self : LLeaky) : option (pyval -> pyval) :=
  base_state_quant (self_base self).
Definition self_output (self : LLeaky) : bool := base_output (self_base self).

Definition set_V (v : tensor) (s : LLeaky) : LLeaky :=
  {| self_base := self_base s; self_all_to_all := self_all_to_all s;
     self_learn_recurrent := self_learn_recurrent s;
     self_linear_features := self_linear_features s;
     self_kernel_size := self_kernel_size s;
     self_conv2d_channels := self_conv2d_channels s;
     self_rho_b := self_rho_b s; self_thresh_beta := self_thresh_beta s;
     self_V := Some v; self_padding := self_padding s;
     self_recurrent := self_recurrent s;
     self_recurrent_requires_grad := self_recurrent_requires_grad s;
     self_spk := self_spk s; self_mem := self_mem s; self_b := self_b s;
     self_reset := self_reset s |}.

Definition set_padding (p : Z * Z) (s : LLeaky) : LLeaky :=
  {| self_base := self_base s; self_all_to_all := self_all_to_all s;
     self_learn_recurrent := self_learn_recurrent s;
     self_linear_features := self_linear_features s;
     self_kernel_size := self_kernel_size s;
     self_conv2d_channels := self_conv2d_channels s;
     self_rho_b := self_rho_b s; self_thresh_beta := self_thresh_beta s;
     self_V := self_V s; self_padding := Some p;
     self_recurrent := self_recurrent s;
     self_recurrent_requires_grad := self_recurrent_requires_grad s;
     self_spk := self_spk s; self_mem := self_mem s; self_b := self_b s;
     self_reset := self_reset s |}.

Definition set_recurrent (r : Recurrent) (s : LLeaky) : LLeaky :=
  {| self_base := self_base s; self_all_to_all := self_all_to_all s;
     self_learn_recurrent := self_learn_recurrent s;
     self_linear_features := self_linear_features s;
     self_kernel_size := self_kernel_size s;
     self_conv2d_channels := self_conv2d_channels s;
     self_rho_b := self_rho_b s; self_thresh_beta := self_thresh_beta s;
     self_V := self_V s; self_padding := self_padding s;
     self_recurrent := Some r;
     self_recurrent_requires_grad := self_recurrent_requires_grad s;
     self_spk := self_spk s; self_mem := self_mem s; self_b := self_b s;
     self_reset := self_reset s |}.

Definition set_recurrent_requires_grad (g : bool) (s : LLeaky) : LLeaky :=
  {| self_base := self_base s; self_all_to_all := self_all_to_all s;
     self_learn_recurrent := self_learn_recurrent s;
     self_linear_features := self_linear_features s;
     self_kernel_size := self_kernel_size s;
     self_conv2d_channels := self_conv2d_channels s;
     self_rho_b := self_rho_b s; self_thresh_beta := self_thresh_beta s;
     self_V := self_V s; self_padding := self_padding s;
     self_recurrent := self_recurrent s;
     self_recurrent_requires_grad := g;
     self_spk := self_spk s; self_mem := self_mem s; self_b := self_b s;
     self_reset := self_reset s |}.

Definition set_spk (v : pyval) (s : LLeaky) : LLeaky :=
  {| self_base := self_base s; self_all_to_all := self_all_to_all s;
     self_learn_recurrent := self_learn_recurrent s;
     self_linear_features := self_linear_features s;
     self_kernel_size := self_kernel_size s;
     self_conv2d_channels := self_conv2d_channels s;
     self_rho_b := self_rho_b s; self_thresh_beta := self_thresh_beta s;
     self_V := self_V s; self_padding := self_padding s;
     self_recurrent := self_recurrent s;
     self_recurrent_requires_grad := self_recurrent_requires_grad s;
     self_spk := Some v; self_mem := self_mem s; self_b := self_b s;
     self_reset := self_reset s |}.

Definition set_mem (v : pyval) (s : LLeaky) : LLeaky :=
  {| self_base := self_base s; self_all_to_all := self_all_to_all s;
     self_learn_recurrent := self_learn_recurrent s;
     self_linear_features := self_linear_features s;
     self_kernel_size := self_kernel_size s;
     self_conv2d_channels := self_conv2d_channels s;
     self_rho_b := self_rho_b s; self_thresh_beta := self_thresh_beta s;
     self_V := self_V s; self_padding := self_padding s;
     self_recurrent := self_recurrent s;
     self_recurrent_requires_grad := self_recurrent_requires_grad s;
     self_spk := self_spk s; self_mem := Some v; self_b := self_b s;
     self_reset := self_reset s |}.

Definition set_b (v : pyval) (s : LLeaky) : LLeaky :=
  {| self_base := self_base s; self_all_to_all := self_all_to_all s;
     self_learn_recurrent := self_learn_recurrent s;
     self_linear_features := self_linear_features s;
     self_kernel_size := self_kernel_size s;
     self_conv2d_channels := self_conv2d_channels s;
     self_rho_b := self_rho_b s; self_thresh_beta := self_thresh_beta s;
     self_V := self_V s; self_padding := self_padding s;
     self_recurrent := self_recurrent s;
     self_recurrent_requires_grad := self_recurrent_requires_grad s;
     self_spk := self_spk s; self_mem := self_mem s; self_b := Some v;
     self_reset := self_reset s |}.

Definition set_reset (v : pyval) (s : LLeaky) : LLeaky :=
  {| self_base := self_base s; self_all_to_all := self_all_to_all s;
     self_learn_recurrent := self_learn_recurrent s;
     self_linear_features := self_linear_features s;
     self_kernel_size := self_kernel_size s;
     self_conv2d_channels := self_conv2d_channels s;
     self_rho_b := self_rho_b s; self_thresh_beta := self_thresh_beta s;
     self_V := self_V s; self_padding := self_padding s;
     self_recurrent := self_recurrent s;
     self_recurrent_requires_grad := self_recurrent_requires_grad s;
     self_spk := self_spk s; self_mem := self_mem s; self_b := self_b s;
     self_reset := Some v |}.

(** Reading an attribute that was never assigned raises. *)
Definition getattr {A : Type} (name : string) (field : option A) : outcome A :=
  match field with
  | Some v => Return v
  | None => Raise (AttributeError name)
  end.

(** ** Computations on the object *)

Definition M (A : Type) : Type := LLeaky -> outcome A * LLeaky.

Definition ret {A : Type} (a : A) : M A := fun s => (Return a, s).

Definition bind {A B : Type} (c : M A) (k : A -> M B) : M B :=
  fun s => match c s with
           | (Return a, s') => k a s'
           | (Raise e, s') => (Raise e, s')
           end.

Definition lift {A : Type} (c : outcome A) : M A := fun s => (c, s).

(** Evaluate a method that only reads the object. *)
Definition reading {A : Type} (f : LLeaky -> outcome A) : M A := fun s => (f s, s).

Definition assign (f : LLeaky -> LLeaky) : M unit := fun s => (Return tt, f s).

Notation "x <- c ;; k" := (bind c (fun x => k))
  (at level 61, c at next level, right associativity).
Notation "c ;;; k" := (bind c (fun _ => k))
  (at level 61, right associativity).

(** ** What the layer takes from its base class, numpy and torch

    [LLeaky] inherits from [ALIF] and calls into numpy and torch; none of
    that code belongs to this file.  The development is parametric in it. *)

Class Env : Type := {
  (** [np.exp] *)
  np_exp : Qc -> Qc;
  (** [ALIF.__init__(beta, threshold, init_hidden, inhibition, learn_beta,
      reset_mechanism, state_quant, output)]; the surrogate-gradient
      arguments are not modelled. *)
  ALIF_init : tensor -> tensor -> bool -> bool -> bool -> string ->
              option (pyval -> pyval) -> bool -> outcome ALIF_attrs;
  (** the value [_V_register_buffer(V, learn_V)] stores in [self.V] *)
  _V_register_buffer : tensor -> bool -> tensor;
  init_lleaky : LLeaky -> pyval * pyval * pyval;
  init_rleaky : LLeaky -> pyval * pyval;
  alif_mem_reset : LLeaky -> pyval -> pyval -> pyval -> pyval;
  mem_reset : LLeaky -> pyval -> pyval;
  (** [alif_fire(mem, thresh, b)]; the hidden path passes [mem] only *)
  alif_fire : LLeaky -> pyval -> option pyval -> option pyval -> pyval;
  (** [alif_fire_inhibition(batch_size, mem, thresh)]; the hidden path
      passes no [thresh] *)
  alif_fire_inhibition : LLeaky -> nat -> pyval -> option pyval -> pyval;
  (** the forward passes of [nn.Linear(in, out)] and of
      [nn.Conv2d(in, out, kernel_size, padding)] with the weights torch
      drew for them; [None] when torch rejects the argument *)
  nn_Linear_forward : Z -> Z -> pyval -> option tensor;
  nn_Conv2d_forward : Z -> Z -> kernel -> Z * Z -> pyval -> option tensor
}.

(** Modelled from the spec: [_SpikeTorchConv] (imported from [.neurons]),
    which on first use allocates zero-valued state shaped to match the
    input, one tensor per state it is given. *)
Definition _SpikeTorchConv (states : pyval * pyval * pyval) (input_ : tensor)
  : pyval * pyval * pyval :=
  (zeros_like input_, zeros_like input_, zeros_like input_).

(** Python truthiness of an optional integer and of an optional kernel
    size ([None] and [0] are false, any pair is true). *)
Definition truthy_int (x : option Z) : bool :=
  match x with
  | None => false
  | Some z => negb (Z.eqb z 0)
  end.

Definition truthy_kernel (x : option kernel) : bool :=
  match x with
  | None => false
  | Some (KInt k) => negb (Z.eqb k 0)
  | Some (KPair _ _) => true
  end.

Definition is_not_None {A : Type} (x : option A) : bool :=
  match x with
  | None => false
  | Some _ => true
  end.

Definition forward_cases_msg : string :=
  "When `init_hidden=True`,RLeaky expects 1 input argument.".

Definition init_cases_msg_missing : string :=
  "When `all_to_all=True`, RLeaky requires either`linear_features` or (`conv2d_channels` and `kernel_size`) to be specified. The shape should match the shape of the output spike of the layer.".

Definition init_cases_msg_both_conv : string :=
  "`conv2d_channels` and `kernel_size` must both bespecified. The shape of `conv2d_channels` should match the shape of the outputspikes.".

Definition init_cases_msg_linear_and_conv : string :=
  "`linear_features` cannot be specified at the same time as`conv2d_channels` or `kernel_size`. A linear layer and conv2d layer cannot bothbe specified at the same time.".

Definition init_cases_msg_one_to_one : string :=
  "When `all_to_all`=False, none of `linear_features`,`conv2d_channels`, or `kernel_size` should be specified. The weight `V` is usedinstead.".

(** [class RecurrentOneToOne]: [forward(x) = x * self.V]. *)
Definition RecurrentOneToOne_forward (V : tensor) (x : pyval) : outcome pyval :=
  tmul x (T V).

(** torch.nn.Conv2d's documented output size along one spatial axis,
    [floor((n + 2*padding - dilation*(kernel-1) - 1) / stride) + 1], at the
    stride 1 and dilation 1 that [_init_recurrent_conv2d] leaves at their
    defaults. *)
Definition conv2d_out_size (n k p : Z) : Z :=
  ((n + 2 * p - 1 * (k - 1) - 1) / 1 + 1)%Z.

Definition kernel_axis (k : kernel) (axis : bool) : Z :=
  match k with
  | KInt k => k
  | KPair k0 k1 => if axis then k1 else k0
  end.

Definition negative_dimension_msg : string :=
  "Trying to create tensor with negative dimension".

(** The constructors [nn.Linear(in, out)] and
    [nn.Conv2d(in, out, kernel_size, padding)] of torch allocate the weight
    tensor, of shape [(out, in)] and [(out, in, k0, k1)]: torch refuses a
    negative dimension with a [RuntimeError] (whose message goes on with the
    offending sizes) and builds the module otherwise. *)
Definition nn_Linear (i o : Z) : outcome Recurrent :=
  if (i <? 0)%Z || (o <? 0)%Z
  then Raise (RuntimeError negative_dimension_msg)
  else Return (Linear i o).

Definition nn_Conv2d (i o : Z) (k : kernel) (p : Z * Z) : outcome Recurrent :=
  if (i <? 0)%Z || (o <? 0)%Z
     || (kernel_axis k false <? 0)%Z || (kernel_axis k true <? 0)%Z
  then Raise (RuntimeError negative_dimension_msg)
  else Return (Conv2d i o k p).

Section Methods.

Context {E : Env}.

(** [self.recurrent(x)] *)
Definition recurrent_call (r : Recurrent) (x : pyval) : outcome pyval :=
  match r with
  | Linear i o =>
      match nn_Linear_forward i o x with
      | Some y => Return (T y)
      | None => Raise (ModuleError "nn.Linear")
      end
  | Conv2d i o k p =>
      match nn_Conv2d_forward i o k p x with
      | Some y => Return (T y)
      | None => Raise (ModuleError "nn.Conv2d")
      end
  | RecurrentOneToOne V => RecurrentOneToOne_forward V x
  end.

(** [self.recurrent = nn.Linear(self.linear_features, self.linear_features)] *)
Definition _init_recurrent_linear : M unit :=
  fun self =>
    match self_linear_features self with
    | Some n =>
        match nn_Linear n n with
        | Return r => (Return tt, set_recurrent r self)
        | Raise e => (Raise e, self)
        end
    | None => (Raise (TypeError "nn.Linear"), self)
    end.

Definition _init_padding : M unit :=
  fun self =>
    match self_kernel_size self with
    | Some (KInt k) => (Return tt, set_padding (k / 2, k / 2)%Z self)
    | Some (KPair k0 k1) => (Return tt, set_padding (k0 / 2, k1 / 2)%Z self)
    | None => (Raise (TypeError "'NoneType' object is not subscriptable"), self)
    end.

Definition _init_recurrent_conv2d : M unit :=
  _init_padding ;;;
  fun self =>
    match self_conv2d_channels self, self_kernel_size self, self_padding self with
    | Some c, Some k, Some p =>
        match nn_Conv2d c c k p with
        | Return r => (Return tt, set_recurrent r self)
        | Raise e => (Raise e, self)
        end
    | _, _, _ => (Raise (TypeError "nn.Conv2d"), self)
    end.

Definition _init_recurrent_one_to_one : M unit :=
  V <- reading (fun self => getattr "V" (self_V self)) ;;
  assign (set_recurrent (RecurrentOneToOne V)).

Definition _init_recurrent_net : M unit :=
  fun self =>
    if self_all_to_all self then
      if truthy_int (self_linear_features self) then _init_recurrent_linear self
      else if is_not_None (self_kernel_size self) then _init_recurrent_conv2d self
      else (Return tt, self)
    else _init_recurrent_one_to_one self.

Definition _disable_recurrent_grad : M unit :=
  _ <- reading (fun self => getattr "recurrent" (self_recurrent self)) ;;
  assign (set_recurrent_requires_grad false).

Definition _base_state_function (self : LLeaky) (input_ : tensor) (spk mem : pyval)
  : outcome pyval :=
  let* decayed := tmul (T (clamp 0 1 (self_beta self))) mem in
  let* gain := tsub (scalar 1) (T (clamp 0 1 (self_beta self))) in
  let* recurrent := getattr "recurrent" (self_recurrent self) in
  let* fed_back := recurrent_call recurrent spk in
  let* drive := tadd (T input_) fed_back in
  let* scaled := tmul gain drive in
  tadd decayed scaled.

Definition _b_state_function (self : LLeaky) (spk b : pyval) : outcome pyval :=
  let* decayed := tmul (scalar (self_rho_b self)) b in
  let* gained := tmul (scalar (1 - self_rho_b self)) spk in
  tadd decayed gained.

Definition _get_new_thresh (self : LLeaky) (b : pyval) : outcome pyval :=
  let* scaled := tmul b (scalar (self_thresh_beta self)) in
  tadd (T (self_threshold self)) scaled.

Definition _build_state_function (self : LLeaky) (input_ : tensor)
  (spk mem thresh : pyval) : outcome pyval :=
  if Z.eqb (self_reset_mechanism_val self) 0 then
    let* reset := getattr "reset" (self_reset self) in
    let* amount := tmul reset thresh in
    let* lowered := tsub mem amount in
    _base_state_function self input_ spk lowered
  else if Z.eqb (self_reset_mechanism_val self) 1 then
    let* base := _base_state_function self input_ spk mem in
    let* reset := getattr "reset" (self_reset self) in
    let* again := _base_state_function self input_ spk mem in
    let* amount := tmul reset again in
    tsub base amount
  else if Z.eqb (self_reset_mechanism_val self) 2 then
    _base_state_function self input_ spk mem
  else Raise (UnboundLocalError "state_fn").

Definition _base_state_function_hidden (self : LLeaky) (input_ : tensor)
  : outcome pyval :=
  let* mem := getattr "mem" (self_mem self) in
  let* decayed := tmul (T (clamp 0 1 (self_beta self))) mem in
  let* driven := tadd decayed (T input_) in
  let* recurrent := getattr "recurrent" (self_recurrent self) in
  let* spk := getattr "spk" (self_spk self) in
  let* fed_back := recurrent_call recurrent spk in
  tadd driven fed_back.

Definition _build_state_function_hidden (self : LLeaky) (input_ : tensor)
  : outcome pyval :=
  if Z.eqb (self_reset_mechanism_val self) 0 then
    let* base := _base_state_function_hidden self input_ in
    let* reset := getattr "reset" (self_reset self) in
    let* amount := tmul reset (T (self_threshold self)) in
    tsub base amount
  else if Z.eqb (self_reset_mechanism_val self) 1 then
    let* base := _base_state_function_hidden self input_ in
    let* reset := getattr "reset" (self_reset self) in
    let* again := _base_state_function_hidden self input_ in
    let* amount := tmul reset again in
    tsub base amount
  else if Z.eqb (self_reset_mechanism_val self) 2 then
    _base_state_function_hidden self input_
  else Raise (UnboundLocalError "state_fn").

Definition _lleaky_forward_cases (spk mem : pyval) : outcome unit :=
  if negb (is_False mem) || negb (is_False spk)
  then Raise (TypeError forward_cases_msg)
  else Return tt.

Definition _lleaky_init_cases (self : LLeaky) : outcome unit :=
  let all_to_all_bool := self_all_to_all self in
  (* the source keeps the raw [linear_features] here and only ever tests it *)
  let linear_features_bool := truthy_int (self_linear_features self) in
  let conv2d_channels_bool := truthy_int (self_conv2d_channels self) in
  let kernel_size_bool := truthy_kernel (self_kernel_size self) in
  if all_to_all_bool then
    if negb linear_features_bool then
      if negb (conv2d_channels_bool || kernel_size_bool) then
        Raise (TypeError init_cases_msg_missing)
      else if xorb conv2d_channels_bool kernel_size_bool then
        Raise (TypeError init_cases_msg_both_conv)
      else Return tt
    else if (linear_features_bool && kernel_size_bool)
            || (linear_features_bool && conv2d_channels_bool) then
      Raise (TypeError init_cases_msg_linear_and_conv)
    else Return tt
  else
    if linear_features_bool || conv2d_channels_bool || kernel_size_bool then
      Raise (TypeError init_cases_msg_one_to_one)
    else Return tt.

End Methods.

(** ** Construction, the step and the broadcast reset *)

(** The arguments of [LLeaky.__init__]; [spike_grad] and
    [surrogate_disable] belong to the gradient machinery and are left out. *)
Record Args : Type := {
  arg_beta : tensor;
  arg_V : tensor;
  arg_thresh_beta : Qc;
  arg_dt : Qc;
  arg_tau_adaptation : Qc;
  arg_all_to_all : bool;
  arg_linear_features : option Z;
  arg_conv2d_channels : option Z;
  arg_kernel_size : option kernel;
  arg_threshold : tensor;
  arg_init_hidden : bool;
  arg_inhibition : bool;
  arg_learn_beta : bool;
  arg_learn_recurrent : bool;
  arg_reset_mechanism : string;
  arg_state_quant : option (pyval -> pyval);
  arg_output : bool
}.

(** What [forward] returns: [(spk, mem, b)] with explicit state,
    [(self.spk, self.mem)] or [self.spk] alone with owned state. *)
Inductive forward_result : Type :=
| Spk_mem_b (spk mem b : pyval)
| Spk_mem (spk mem : pyval)
| Spk (spk : pyval).

(** [x.size(0)] *)
Definition size0 (x : pyval) : nat := length (operand x).

Definition get : M LLeaky := fun s => (Return s, s).

Section Layer.

Context {E : Env}.

(** The object as it is after lines 261-272 of [__init__]. *)
Definition fresh_object (base : ALIF_attrs) (a : Args) : LLeaky :=
  {| self_base := base;
     self_all_to_all := arg_all_to_all a;
     self_learn_recurrent := arg_learn_recurrent a;
     self_linear_features := arg_linear_features a;
     self_kernel_size := arg_kernel_size a;
     self_conv2d_channels := arg_conv2d_channels a;
     self_rho_b := np_exp (- arg_dt a / arg_tau_adaptation a);
     self_thresh_beta := arg_thresh_beta a;
     self_V := None; self_padding := None; self_recurrent := None;
     self_recurrent_requires_grad := true;
     self_spk := None; self_mem := None; self_b := None; self_reset := None |}.

(** Lines 274-288 of [__init__]. *)
Definition init_body (a : Args) : M unit :=
  reading _lleaky_init_cases ;;;
  self <- get ;;
  (if self_all_to_all self then _init_recurrent_net
   else
     assign (set_V (_V_register_buffer (arg_V a) (arg_learn_recurrent a))) ;;;
     _init_recurrent_one_to_one) ;;;
  (if negb (arg_learn_recurrent a) then _disable_recurrent_grad else ret tt) ;;;
  self <- get ;;
  if self_init_hidden self then
    let '(spk, mem, b) := init_lleaky self in
    assign (fun s => set_b b (set_mem mem (set_spk spk s)))
  else ret tt.

(** [__init__]: the outcome, and the object as the constructor left it
    ([None] when it fails before the object has the attributes of lines
    261-272: in the base constructor or on the division by
    [tau_adaptation]). *)
Definition __init__ (a : Args) : outcome unit * option LLeaky :=
  match ALIF_init (arg_beta a) (arg_threshold a) (arg_init_hidden a)
          (arg_inhibition a) (arg_learn_beta a) (arg_reset_mechanism a)
          (arg_state_quant a) (arg_output a) with
  | Raise e => (Raise e, None)
  | Return base =>
      if Qc_eq_bool (arg_tau_adaptation a) 0 then (Raise ZeroDivisionError, None)
      else
        let (r, self) := init_body a (fresh_object base a) in (r, Some self)
  end.

(** Lines 315-316: [if self.state_quant: mem = self.state_quant(mem)]. *)
Definition apply_state_quant (self : LLeaky) (mem : pyval) : pyval :=
  match self_state_quant self with
  | Some quant => quant mem
  | None => mem
  end.

(** Lines 294-302 of [forward]: first-pass conversion of the state. *)
Definition forward_init (input_ : tensor) (spk mem b : pyval)
  : M (pyval * pyval * pyval) :=
  if hasattr_init_flag spk || hasattr_init_flag mem then
    ret (_SpikeTorchConv (spk, mem, b) input_)
  else if is_False mem then
    own_mem <- reading (fun self => getattr "mem" (self_mem self)) ;;
    if hasattr_init_flag own_mem then
      own_spk <- reading (fun self => getattr "spk" (self_spk self)) ;;
      own_mem <- reading (fun self => getattr "mem" (self_mem self)) ;;
      own_b <- reading (fun self => getattr "b" (self_b self)) ;;
      let '(spk', mem', b') := _SpikeTorchConv (own_spk, own_mem, own_b) input_ in
      assign (fun s => set_b b' (set_mem mem' (set_spk spk' s))) ;;;
      ret (spk, mem, b)
    else ret (spk, mem, b)
  else ret (spk, mem, b).

(** Lines 308-323: the step on state passed by the caller. *)
Definition forward_explicit (input_ : tensor) (spk mem b : pyval)
  : M forward_result :=
  b <- reading (fun self => _b_state_function self spk b) ;;
  thresh <- reading (fun self => _get_new_thresh self b) ;;
  self <- get ;;
  assign (set_reset (alif_mem_reset self mem b thresh)) ;;;
  mem <- reading (fun self => _build_state_function self input_ spk mem thresh) ;;
  self <- get ;;
  let mem := apply_state_quant self mem in
  let spk :=
    if self_inhibition self
    then alif_fire_inhibition self (size0 mem) mem (Some thresh)
    else alif_fire self mem (Some thresh) (Some b) in
  ret (Spk_mem_b spk mem b).

(** Lines 332-333: [if self.state_quant: self.mem = self.state_quant(self.mem)]. *)
Definition quantize_owned : M unit :=
  self <- get ;;
  match self_state_quant self with
  | Some quant =>
      own_mem <- reading (fun self => getattr "mem" (self_mem self)) ;;
      assign (set_mem (quant own_mem))
  | None => ret tt
  end.

(** Lines 327-343: the step on state owned by the layer. *)
Definition forward_hidden (input_ : tensor) (spk mem : pyval)
  : M forward_result :=
  lift (_lleaky_forward_cases spk mem) ;;;
  own_mem <- reading (fun self => getattr "mem" (self_mem self)) ;;
  self <- get ;;
  assign (set_reset (mem_reset self own_mem)) ;;;
  new_mem <- reading (fun self => _build_state_function_hidden self input_) ;;
  assign (set_mem new_mem) ;;;
  quantize_owned ;;;
  own_mem <- reading (fun self => getattr "mem" (self_mem self)) ;;
  self <- get ;;
  assign (set_spk
            (if self_inhibition self
             then alif_fire_inhibition self (size0 own_mem) own_mem None
             else alif_fire self own_mem None None)) ;;;
  self <- get ;;
  own_spk <- reading (fun self => getattr "spk" (self_spk self)) ;;
  own_mem <- reading (fun self => getattr "mem" (self_mem self)) ;;
  if self_output self then ret (Spk_mem own_spk own_mem) else ret (Spk own_spk).

Definition forward (input_ : tensor) (spk mem b : pyval) : M forward_result :=
  args <- forward_init input_ spk mem b ;;
  let '(spk, mem, b) := args in
  self <- get ;;
  if negb (self_init_hidden self)
  then forward_explicit input_ spk mem b
  else forward_hidden input_ spk mem.

(** The class registry [cls.instances] holds every spiking layer built so
    far, of this class or of another. *)
Inductive instance : Type :=
| LLeaky_instance (layer : LLeaky)
| Other_instance.

(** [reset_hidden]: for every registered [LLeaky],
    [layer.spk, layer.mem = layer.init_rleaky()]. *)
Definition reset_hidden_one (i : instance) : instance :=
  match i with
  | LLeaky_instance layer =>
      let '(spk, mem) := init_rleaky layer in
      LLeaky_instance (set_mem mem (set_spk spk layer))
  | Other_instance => Other_instance
  end.

Definition reset_hidden (instances : list instance) : list instance :=
  map reset_hidden_one instances.

End Layer.


(** ** A reference environment

    One implementation of the base class and of the torch modules, used to
    run the layer on concrete inputs. *)

(** The uninitialised state: an empty [_SpikeTensor]. *)
Definition sentinel : pyval := Tensor true [].

Definition ge01 (a c : Qc) : Qc := if Qc_leb c a then 1%Qc else 0%Qc.

(** Elementwise [x >= y] as 0/1 (empty when the sizes do not broadcast). *)
Definition heaviside_ge (x y : pyval) : pyval :=
  match broadcast2 ge01 (operand x) (operand y) with
  | Return r => T r
  | Raise _ => T []
  end.

Fixpoint argmax_from (best : Qc) (best_i i : nat) (x : tensor) : nat :=
  match x with
  | [] => best_i
  | a :: x' =>
      if Qc_leb a best then argmax_from best best_i (S i) x'
      else argmax_from a i (S i) x'
  end.

(** Index of the maximum, the lowest one among equal maxima. *)
Definition argmax (x : tensor) : nat :=
  match x with
  | [] => 0%nat
  | a :: x' => argmax_from a 0 1 x'
  end.

Definition default_thresh (self : LLeaky) (thresh : option pyval) : pyval :=
  match thresh with
  | Some t => t
  | None => T (self_threshold self)
  end.

(** Modelled from the spec: [ALIF.alif_mem_reset], the reset gate, 1 where
    the prior potential met or exceeded the freshly updated threshold. *)
Definition spec_alif_mem_reset (self : LLeaky) (mem b thresh : pyval) : pyval :=
  heaviside_ge mem thresh.

(** Modelled from the spec: [mem_reset] of the base class, the same gate
    against the layer's own threshold. *)
Definition spec_mem_reset (self : LLeaky) (mem : pyval) : pyval :=
  heaviside_ge mem (T (self_threshold self)).

(** Modelled from the spec: [ALIF.alif_fire], [spike = (potential >=
    threshold)] elementwise. *)
Definition spec_alif_fire (self : LLeaky) (mem : pyval) (thresh b : option pyval)
  : pyval :=
  heaviside_ge mem (default_thresh self thresh).

(** Modelled from the spec: [ALIF.alif_fire_inhibition], only the unit with
    the maximum potential may spike, and only if it meets its threshold;
    ties go to the lowest index.  The one-dimensional tensor is one batch
    element. *)
Definition spec_alif_fire_inhibition (self : LLeaky) (batch_size : nat)
  (mem : pyval) (thresh : option pyval) : pyval :=
  let m := operand mem in
  let k := argmax m in
  let fires := Qc_leb (elem (default_thresh self thresh) k) (nth k m 0%Qc) in
  T (map (fun j => if Nat.eqb j k && fires then 1%Qc else 0%Qc) (seq 0 (length m))).

(** Modelled from the spec: [ALIF.init_lleaky], the state triple at
    construction, each the uninitialised sentinel. *)
Definition spec_init_lleaky (self : LLeaky) : pyval * pyval * pyval :=
  (sentinel, sentinel, sentinel).

(** Modelled from the spec: [init_rleaky] as [reset_hidden] uses it,
    all-zero spike and potential of the previously bound shape. *)
Definition spec_init_rleaky (self : LLeaky) : pyval * pyval :=
  match self_mem self with
  | Some (Tensor false d) => (zeros_like d, zeros_like d)
  | _ => (sentinel, sentinel)
  end.

(** Modelled from the spec: [ALIF.__init__], which stores its arguments
    and rejects an unsupported reset-policy token. *)
Definition spec_ALIF_init (beta threshold : tensor)
  (init_hidden inhibition learn_beta : bool) (reset_mechanism : string)
  (state_quant : option (pyval -> pyval)) (output : bool) : outcome ALIF_attrs :=
  let build (val : Z) :=
    Return {| base_beta := beta; base_threshold := threshold;
              base_init_hidden := init_hidden; base_inhibition := inhibition;
              base_reset_mechanism_val := val; base_state_quant := state_quant;
              base_output := output |} in
  if String.eqb reset_mechanism "subtract" then build 0%Z
  else if String.eqb reset_mechanism "zero" then build 1%Z
  else if String.eqb reset_mechanism "none" then build 2%Z
  else Raise (ConfigurationError "reset_mechanism").

(** Modelled from the spec: [_V_register_buffer], which keeps the weight
    (one shared scalar or one per unit) as given. *)
Definition spec_V_register_buffer (V : tensor) (learn_V : bool) : tensor := V.

(** A rational stand-in for [np.exp]: its Taylor polynomial of degree 2. *)
Definition exp_approx (x : Qc) : Qc := (1 + x + x * x / Q2Qc 2)%Qc.

(** An [nn.Linear] whose weights and bias are all zero. *)
Definition zero_Linear_forward (i o : Z) (x : pyval) : option tensor :=
  match x with
  | Tensor _ d =>
      if Z.eqb (Z.of_nat (length d)) i
      then Some (repeat 0%Qc (Z.to_nat o))
      else None
  | PyFalse => None
  end.

(** [nn.Conv2d] takes no one-dimensional input. *)
Definition flat_Conv2d_forward (i o : Z) (k : kernel) (p : Z * Z) (x : pyval)
  : option tensor := None.

#[export] Instance reference_env : Env := {|
  np_exp := exp_approx;
  ALIF_init := spec_ALIF_init;
  _V_register_buffer := spec_V_register_buffer;
  init_lleaky := spec_init_lleaky;
  init_rleaky := spec_init_rleaky;
  alif_mem_reset := spec_alif_mem_reset;
  mem_reset := spec_mem_reset;
  alif_fire := spec_alif_fire;
  alif_fire_inhibition := spec_alif_fire_inhibition;
  nn_Linear_forward := zero_Linear_forward;
  nn_Conv2d_forward := flat_Conv2d_forward
|}.

Definition half : Qc := Q2Qc (1 # 2).

(** Arguments of a one-unit layer with one-to-one feedback of weight 0,
    decay 1/2, threshold 1/2 and adaptation coupling 1. *)
Definition unit_args (hidden : bool) (reset_mechanism : string) : Args :=
  {| arg_beta := [half]; arg_V := [0%Qc]; arg_thresh_beta := 1%Qc;
     arg_dt := 1%Qc; arg_tau_adaptation := Q2Qc 2;
     arg_all_to_all := false; arg_linear_features := None;
     arg_conv2d_channels := None; arg_kernel_size := None;
     arg_threshold := [half]; arg_init_hidden := hidden;
     arg_inhibition := false; arg_learn_beta := false;
     arg_learn_recurrent := true; arg_reset_mechanism := reset_mechanism;
     arg_state_quant := None; arg_output := false |}.

(** The layer [__init__] builds from [unit_args], as a total function. *)
Definition unit_layer (hidden : bool) (reset_mechanism : string) : LLeaky :=
  match ALIF_init (Env := reference_env) [half] [half] hidden false false
          reset_mechanism None false with
  | Return base =>
      snd (init_body (E := reference_env) (unit_args hidden reset_mechanism)
             (fresh_object (E := reference_env) base (unit_args hidden reset_mechanism)))
  | Raise _ =>
      fresh_object (E := reference_env)
        {| base_beta := [half]; base_threshold := [half];
           base_init_hidden := hidden; base_inhibition := false;
           base_reset_mechanism_val := 0%Z; base_state_quant := None;
           base_output := false |}
        (unit_args hidden reset_mechanism)
  end.

(** ** Vocabulary of the statements *)

(** The decay a unit integrates with: [self.beta.clamp(0, 1)] at unit [i]. *)
Definition beta_eff (self : LLeaky) (i : nat) : Qc :=
  clamp1 0 1 (at_ (self_beta self) i).

(** The hidden-state unit layer after one step on input 1: the potential
    reached 1 and the unit spiked. *)
Definition stepped_layer (reset_mechanism : string) : LLeaky :=
  snd (forward (E := reference_env) [1%Qc] PyFalse PyFalse PyFalse
         (unit_layer true reset_mechanism)).

(** The same layer inside its second step, once line 329 has stored the
    reset signal of the stored potential. *)
Definition resetting_layer (reset_mechanism : string) : LLeaky :=
  let s := stepped_layer reset_mechanism in
  match self_mem s with
  | Some own_mem => set_reset (mem_reset (Env := reference_env) s own_mem) s
  | None => s
  end.

(** The validity table of the connectivity configuration, in the words of
    the specification.  A field counts as given the way the validator
    itself tests it: by its Python truth value (neither [None] nor 0). *)
Definition table_rejects (all_to_all linear channels kernel_ : bool) : Prop :=
  (all_to_all = true /\ linear = false /\ channels = false /\ kernel_ = false)
  \/ (all_to_all = true /\ channels <> kernel_)
  \/ (all_to_all = true /\ linear = true /\ (channels = true \/ kernel_ = true))
  \/ (all_to_all = false /\ (linear = true \/ channels = true \/ kernel_ = true)).

Definition table_accepts (all_to_all linear channels kernel_ : bool) : Prop :=
  (all_to_all = true /\ linear = true /\ channels = false /\ kernel_ = false)
  \/ (all_to_all = true /\ linear = false /\ channels = true /\ kernel_ = true)
  \/ (all_to_all = false /\ linear = false /\ channels = false /\ kernel_ = false).

(** Arguments asking for all-to-all feedback without saying which. *)
Definition missing_args : Args :=
  {| arg_beta := [half]; arg_V := [1%Qc]; arg_thresh_beta := 1%Qc;
     arg_dt := 1%Qc; arg_tau_adaptation := Q2Qc 2;
     arg_all_to_all := true; arg_linear_features := None;
     arg_conv2d_channels := None; arg_kernel_size := None;
     arg_threshold := [half]; arg_init_hidden := false;
     arg_inhibition := false; arg_learn_beta := false;
     arg_learn_recurrent := true; arg_reset_mechanism := "zero";
     arg_state_quant := None; arg_output := false |}.

(** What the reference base class leaves for [missing_args]. *)
Definition missing_base : ALIF_attrs :=
  {| base_beta := [half]; base_threshold := [half];
     base_init_hidden := false; base_inhibition := false;
     base_reset_mechanism_val := 1%Z; base_state_quant := None;
     base_output := false |}.

(** An outcome that is not a [TypeError]. *)
Definition quiet {A : Type} (o : outcome A) : Prop :=
  forall msg, o <> Raise (TypeError msg).

Definition quietM {A : Type} (c : M A) : Prop :=
  forall s, quiet (fst (c s)).

(** A computation whose every run relates the object before to the object
    after (also when it raises). *)
Definition preserves {A : Type} (R : LLeaky -> LLeaky -> Prop) (c : M A) : Prop :=
  forall s, R s (snd (c s)).

(** The owned trace is the same object attribute in both. *)
Definition same_b (s s' : LLeaky) : Prop := self_b s' = self_b s.

(** The state the first-pass conversion leaves in a layer that owns its
    state. *)
Definition converted (input_ : tensor) (self : LLeaky) : LLeaky :=
  set_b (zeros_like input_) (set_mem (zeros_like input_)
    (set_spk (zeros_like input_) self)).

(** The base attributes are the same and the owned trace is the one before
    or the zeros of the first-pass conversion. *)
Definition trace_kept (input_ : tensor) (s s' : LLeaky) : Prop :=
  self_base s' = self_base s
  /\ (self_b s' = self_b s \/ self_b s' = Some (zeros_like input_)).

(** Arguments asking for a convolutional projection with a 2x2 kernel, and
    the object [__init__] validates for them. *)
Definition conv_args : Args :=
  {| arg_beta := [half]; arg_V := [1%Qc]; arg_thresh_beta := 1%Qc;
     arg_dt := 1%Qc; arg_tau_adaptation := Q2Qc 2;
     arg_all_to_all := true; arg_linear_features := None;
     arg_conv2d_channels := Some 1%Z; arg_kernel_size := Some (KInt 2);
     arg_threshold := [half]; arg_init_hidden := false;
     arg_inhibition := false; arg_learn_beta := false;
     arg_learn_recurrent := true; arg_reset_mechanism := "zero";
     arg_state_quant := None; arg_output := false |}.

Definition conv_object : LLeaky :=
  fresh_object (E := reference_env) missing_base conv_args.

(** The scenario of the specification: one unit, decay 1/2, threshold 1/2,
    no coupling of the trace to the threshold, reset by subtraction, state
    passed by the caller, one-to-one feedback of weight 0. *)
Definition scenario_args : Args :=
  {| arg_beta := [half]; arg_V := [0%Qc]; arg_thresh_beta := 0%Qc;
     arg_dt := 1%Qc; arg_tau_adaptation := Q2Qc 2;
     arg_all_to_all := false; arg_linear_features := None;
     arg_conv2d_channels := None; arg_kernel_size := None;
     arg_threshold := [half]; arg_init_hidden := false;
     arg_inhibition := false; arg_learn_beta := false;
     arg_learn_recurrent := true; arg_reset_mechanism := "subtract";
     arg_state_quant := None; arg_output := false |}.

Definition scenario_layer : LLeaky :=
  match __init__ (E := reference_env) scenario_args with
  | (_, Some obj) => obj
  | (_, None) => unit_layer false "subtract"
  end.

From Stdlib Require Import Lqa SpecFloat.

(** ** The broadcast detach and further vocabulary *)

(** [detach_hidden] on one registered instance:
    [layer.mem.detach_(); layer.spk.detach_()].  Detaching keeps the values
    and autograd history is outside the model, so what is left of the call
    is the reading of the two attributes. *)
Definition detach_hidden_one (i : instance) : outcome unit :=
  match i with
  | LLeaky_instance layer =>
      let* _ := getattr "mem" (self_mem layer) in
      let* _ := getattr "spk" (self_spk layer) in
      Return tt
  | Other_instance => Return tt
  end.

(** [detach_hidden]: the loop over [cls.instances], stopping at the first
    exception. *)
Fixpoint detach_hidden (instances : list instance) : outcome unit :=
  match instances with
  | [] => Return tt
  | i :: rest =>
      let* _ := detach_hidden_one i in
      detach_hidden rest
  end.

(** A registered instance on which [detach_hidden] finds what it reads. *)
Definition owns_spk_mem (i : instance) : Prop :=
  match i with
  | LLeaky_instance layer => self_mem layer <> None /\ self_spk layer <> None
  | Other_instance => True
  end.

(** The trace after [n] applications of [_b_state_function] under one
    constant spike tensor. *)
Fixpoint trace_after (self : LLeaky) (spk : pyval) (n : nat) (b : pyval)
  : outcome pyval :=
  match n with
  | O => Return b
  | S n' =>
      let* b' := _b_state_function self spk b in
      trace_after self spk n' b'
  end.

(** Everything [__init__] configures: what a step must leave alone. *)
Definition same_config (s s' : LLeaky) : Prop :=
  self_base s' = self_base s
  /\ self_all_to_all s' = self_all_to_all s
  /\ self_learn_recurrent s' = self_learn_recurrent s
  /\ self_linear_features s' = self_linear_features s
  /\ self_kernel_size s' = self_kernel_size s
  /\ self_conv2d_channels s' = self_conv2d_channels s
  /\ self_rho_b s' = self_rho_b s
  /\ self_thresh_beta s' = self_thresh_beta s
  /\ self_V s' = self_V s
  /\ self_padding s' = self_padding s
  /\ self_recurrent s' = self_recurrent s
  /\ self_recurrent_requires_grad s' = self_recurrent_requires_grad s.

(** The configuration and the owned state triple are the same; only
    [self.reset] may differ. *)
Definition only_reset_differs (s s' : LLeaky) : Prop :=
  same_config s s'
  /\ self_spk s' = self_spk s
  /\ self_mem s' = self_mem s
  /\ self_b s' = self_b s.

(** The unit layer that owns its state, after one step on an input of two
    elements: its state has size 2. *)
Definition wide_layer (reset_mechanism : string) : LLeaky :=
  snd (forward (E := reference_env) [1%Qc; 1%Qc] PyFalse PyFalse PyFalse
         (unit_layer true reset_mechanism)).

(** Every size the arguments give is positive. *)
Definition positive_sizes (a : Args) : bool :=
  match arg_linear_features a with
  | Some n => (0 <? n)%Z
  | None => true
  end
  && match arg_conv2d_channels a with
     | Some c => (0 <? c)%Z
     | None => true
     end
  && match arg_kernel_size a with
     | Some k => (0 <? kernel_axis k false)%Z && (0 <? kernel_axis k true)%Z
     | None => true
     end.

(** Arguments asking for a linear projection of a negative size. *)
Definition negative_linear_args : Args :=
  {| arg_beta := [half]; arg_V := [1%Qc]; arg_thresh_beta := 1%Qc;
     arg_dt := 1%Qc; arg_tau_adaptation := Q2Qc 2;
     arg_all_to_all := true; arg_linear_features := Some (-1)%Z;
     arg_conv2d_channels := None; arg_kernel_size := None;
     arg_threshold := [half]; arg_init_hidden := false;
     arg_inhibition := false; arg_learn_beta := false;
     arg_learn_recurrent := true; arg_reset_mechanism := "zero";
     arg_state_quant := None; arg_output := false |}.


(** The states of a layer that owns its state: what the constructor
    leaves, and from there any call of [forward], returning or raising, and
    any [reset_hidden]. *)
Inductive reachable {E : Env} : LLeaky -> Prop :=
| reach_constructed (a : Args) (obj : LLeaky) :
    __init__ a = (Return tt, Some obj) ->
    self_init_hidden obj = true ->
    reachable obj
| reach_forward (layer : LLeaky) (input_ : tensor) (spk mem b : pyval) :
    reachable layer ->
    reachable (snd (forward input_ spk mem b layer))
| reach_reset_hidden (layer layer' : LLeaky) :
    reachable layer ->
    reset_hidden_one (LLeaky_instance layer) = LLeaky_instance layer' ->
    reachable layer'.

(** Modelled from the spec: the reference environment with the other
    reading of [init_rleaky], deferred shape binding: the reset leaves the
    uninitialised sentinel and the next call allocates the zeros. *)
Definition deferred_env : Env := {|
  np_exp := exp_approx;
  ALIF_init := spec_ALIF_init;
  _V_register_buffer := spec_V_register_buffer;
  init_lleaky := spec_init_lleaky;
  init_rleaky := fun _ => (sentinel, sentinel);
  alif_mem_reset := spec_alif_mem_reset;
  mem_reset := spec_mem_reset;
  alif_fire := spec_alif_fire;
  alif_fire_inhibition := spec_alif_fire_inhibition;
  nn_Linear_forward := zero_Linear_forward;
  nn_Conv2d_forward := flat_Conv2d_forward
|}.

(** ** One unit in binary32

    The tensors of the source hold IEEE 754 binary32 numbers (torch's
    default dtype).  The definitions above compute in exact rationals, which
    have neither infinities nor NaN.  What follows recomputes one unit of
    lines 380-382, 397-400, 405-411 and 419-422 in binary32, with the
    operations of the standard library's [SpecFloat] at precision 24 and
    [emax] 128: round to nearest even, overflow to infinity, NaN for
    [inf - inf] and [0 * inf]. *)
Definition f32 : Type := spec_float.

Definition f32_add : f32 -> f32 -> f32 := SFadd 24 128.
Definition f32_sub : f32 -> f32 -> f32 := SFsub 24 128.
Definition f32_mul : f32 -> f32 -> f32 := SFmul 24 128.
(** [==], [<] and [<=] on floats: false whenever an operand is NaN *)
Definition f32_eqb : f32 -> f32 -> bool := SFeqb.
Definition f32_ltb : f32 -> f32 -> bool := SFltb.
Definition f32_leb : f32 -> f32 -> bool := SFleb.

Definition f32_zero : f32 := S754_zero false.
Definition f32_half : f32 := S754_finite false 8388608 (-24).
Definition f32_one : f32 := S754_finite false 8388608 (-23).
Definition f32_two : f32 := S754_finite false 8388608 (-22).
(** the binary32 number nearest to 3e38; the largest is about 3.4e38 *)
Definition f32_big : f32 := S754_finite false 14791142 104.
Definition f32_inf : f32 := S754_infinity false.
Definition f32_nan : f32 := S754_nan.

(** A binary32 number that is neither an infinity nor NaN. *)
Definition f32_finite (x : f32) : bool :=
  match x with
  | S754_zero _ => true
  | S754_finite _ m e => bounded 24 128 m e
  | S754_infinity _ | S754_nan => false
  end.

(** [x.clamp(0, 1)]; NaN stays NaN. *)
Definition f32_clamp01 (x : f32) : f32 :=
  if f32_ltb x f32_zero then f32_zero
  else if f32_ltb f32_one x then f32_one
  else x.

(** Lines 380-382 at one unit: [beta], [mem], [input_] and the feedback
    [self.recurrent(spk)] there. *)
Definition f32_base_state_function (beta mem input_ fed_back : f32) : f32 :=
  f32_add (f32_mul (f32_clamp01 beta) mem)
          (f32_mul (f32_sub f32_one (f32_clamp01 beta)) (f32_add input_ fed_back)).

(** Lines 405-411 at one unit, [mem] and [fed_back] being [self.mem] and
    [self.recurrent(self.spk)] there. *)
Definition f32_base_state_function_hidden (beta mem input_ fed_back : f32) : f32 :=
  f32_add (f32_add (f32_mul (f32_clamp01 beta) mem) input_) fed_back.

(** Lines 397-400 and 419-422 at one unit: the branch
    [reset_mechanism_val == 1] of the two builders. *)
Definition f32_build_state_function_zero
  (beta mem input_ fed_back reset : f32) : f32 :=
  f32_sub (f32_base_state_function beta mem input_ fed_back)
          (f32_mul reset (f32_base_state_function beta mem input_ fed_back)).

Definition f32_build_state_function_hidden_zero
  (beta mem input_ fed_back reset : f32) : f32 :=
  f32_sub (f32_base_state_function_hidden beta mem input_ fed_back)
          (f32_mul reset (f32_base_state_function_hidden beta mem input_ fed_back)).
(** ** Elementwise reading of tensor arithmetic *)


Lemma obind_Return {A B : Type} (c : outcome A) (k : A -> outcome B) (r : B) :
  obind c k = Return r -> exists a, c = Return a /\ k a = Return r.
Proof.
  destruct c as [a | e]; simpl; intros H.
  - exists a. split; [reflexivity | exact H].
  - discriminate H.
Qed.

Ltac bind_inv H :=
  let a := fresh "v" in
  let Ha := fresh "Hv" in
  apply obind_Return in H; destruct H as (a & Ha & H).

Lemma zip_with_length (f : Qc -> Qc -> Qc) (x y : tensor) :
  length x = length y -> length (zip_with f x y) = length x.
Proof.
  revert y. induction x as [| a x IH]; intros [| c y] H; simpl in *; try discriminate.
  - reflexivity.
  - f_equal. apply IH. now injection H.
Qed.

Lemma zip_with_nth (f : Qc -> Qc -> Qc) (x y : tensor) (i : nat) :
  length x = length y -> (i < length x)%nat ->
  nth i (zip_with f x y) 0%Qc = f (nth i x 0%Qc) (nth i y 0%Qc).
Proof.
  revert y i. induction x as [| a x IH]; intros [| c y] i H Hi; simpl in *;
    try discriminate; try lia.
  destruct i as [| i]; [reflexivity |].
  apply IH; [now injection H | lia].
Qed.

Lemma map_nth_in (g : Qc -> Qc) (x : tensor) (i : nat) :
  (i < length x)%nat -> nth i (map g x) 0%Qc = g (nth i x 0%Qc).
Proof.
  revert i. induction x as [| a x IH]; intros i Hi; simpl in *; [lia |].
  destruct i as [| i]; [reflexivity | apply IH; lia].
Qed.

Lemma at_single (a : Qc) (i : nat) : at_ [a] i = a.
Proof. reflexivity. Qed.

Lemma at_nth (x : tensor) (i : nat) :
  length x <> 1%nat -> at_ x i = nth i x 0%Qc.
Proof.
  intros H. unfold at_. destruct (Nat.eqb_spec (length x) 1); [contradiction | reflexivity].
Qed.

Lemma at_nth_lt (x : tensor) (i : nat) :
  (i < length x)%nat -> at_ x i = nth i x 0%Qc.
Proof.
  intros H. unfold at_. destruct (Nat.eqb_spec (length x) 1) as [E | E]; [| reflexivity].
  replace i with 0%nat by lia. reflexivity.
Qed.

Lemma at_one (x : tensor) (i : nat) :
  length x = 1%nat -> at_ x i = nth 0 x 0%Qc.
Proof. intros H. unfold at_. now rewrite H. Qed.


Lemma broadcast2_cases (f : Qc -> Qc -> Qc) (x y r : tensor) :
  broadcast2 f x y = Return r ->
  (length x = length y /\ r = zip_with f x y)
  \/ (exists a, x = [a] /\ length y <> 1%nat /\ r = map (f a) y)
  \/ (exists c, y = [c] /\ length x <> 1%nat /\ r = map (fun a => f a c) x).
Proof.
  unfold broadcast2.
  destruct (Nat.eqb_spec (length x) (length y)) as [E | E].
  - intros H. injection H as <-. left. split; [exact E | reflexivity].
  - destruct x as [| a [| a' x]].
    + destruct y as [| c [| c' y]]; intros H; try discriminate H.
      injection H as <-. right; right. exists c.
      split; [reflexivity | split; [discriminate | reflexivity]].
    + intros H. injection H as <-. right; left. exists a.
      split; [reflexivity | split; [| reflexivity]].
      simpl in E. congruence.
    + destruct y as [| c [| c' y]]; intros H; try discriminate H.
      injection H as <-. right; right. exists c.
      split; [reflexivity | split; [discriminate | reflexivity]].
Qed.

Lemma broadcast2_length (f : Qc -> Qc -> Qc) (x y r : tensor) :
  broadcast2 f x y = Return r -> length r = broadcast_size (length x) (length y).
Proof.
  intros H. unfold broadcast_size.
  destruct (broadcast2_cases _ _ _ _ H) as [[E ->] | [(a & -> & E & ->) | (c & -> & E & ->)]].
  - rewrite E, Nat.eqb_refl, zip_with_length; congruence.
  - rewrite length_map. change (length [a]) with 1%nat.
    destruct (Nat.eqb_spec 1 (length y)); [congruence | reflexivity].
  - rewrite length_map. change (length [c]) with 1%nat.
    destruct (Nat.eqb_spec (length x) 1); [contradiction | reflexivity].
Qed.

Lemma broadcast2_at (f : Qc -> Qc -> Qc) (x y r : tensor) (i : nat) :
  broadcast2 f x y = Return r -> in_range r i ->
  at_ r i = f (at_ x i) (at_ y i) /\ in_range x i /\ in_range y i.
Proof.
  intros H.
  destruct (broadcast2_cases _ _ _ _ H) as [[E ->] | [(a & -> & E & ->) | (c & -> & E & ->)]];
    unfold in_range; intros Hi.
  - rewrite zip_with_length in Hi by exact E.
    destruct (Nat.eq_dec (length x) 1) as [E1 | E1].
    + rewrite !at_one by (rewrite ?zip_with_length; congruence).
      rewrite zip_with_nth by lia. repeat split; right; congruence.
    + assert (Hlt : (i < length x)%nat) by lia.
      rewrite !at_nth by (rewrite ?zip_with_length; congruence).
      rewrite zip_with_nth by lia. repeat split; left; lia.
  - rewrite length_map in Hi.
    assert (Hlt : (i < length y)%nat) by lia.
    rewrite at_single. rewrite (at_nth_lt (map (f a) y)) by now rewrite length_map.
    rewrite (at_nth_lt y) by exact Hlt. rewrite map_nth_in by exact Hlt.
    repeat split; [right; reflexivity | left; exact Hlt].
  - rewrite length_map in Hi.
    assert (Hlt : (i < length x)%nat) by lia.
    rewrite at_single.
    rewrite (at_nth_lt (map (fun a0 => f a0 c) x)) by now rewrite length_map.
    rewrite (at_nth_lt x) by exact Hlt.
    rewrite (map_nth_in (fun a0 => f a0 c)) by exact Hlt.
    repeat split; [left; exact Hlt | right; reflexivity].
Qed.


Lemma broadcast2_total (f : Qc -> Qc -> Qc) (x y : tensor) :
  length x = length y \/ length x = 1%nat \/ length y = 1%nat ->
  exists r, broadcast2 f x y = Return r.
Proof.
  intros H. unfold broadcast2.
  destruct (Nat.eqb_spec (length x) (length y)) as [E | E]; [eauto |].
  destruct H as [H | [H | H]]; [contradiction | |].
  - destruct x as [| a [| a' x]]; try discriminate H. eauto.
  - destruct y as [| c [| c' y]]; try discriminate H.
    destruct x as [| a [| a' x]]; eauto.
Qed.

Lemma tadd_elem (x y r : pyval) (i : nat) :
  tadd x y = Return r -> covers r i ->
  elem r i = (elem x i + elem y i)%Qc /\ covers x i /\ covers y i.
Proof.
  unfold tadd. intros H Hi. bind_inv H. injection H as <-.
  exact (broadcast2_at _ _ _ _ _ Hv Hi).
Qed.

Lemma tmul_elem (x y r : pyval) (i : nat) :
  tmul x y = Return r -> covers r i ->
  elem r i = (elem x i * elem y i)%Qc /\ covers x i /\ covers y i.
Proof.
  unfold tmul. intros H Hi. bind_inv H. injection H as <-.
  exact (broadcast2_at _ _ _ _ _ Hv Hi).
Qed.

Lemma tsub_elem (x y r : pyval) (i : nat) :
  tsub x y = Return r -> covers r i ->
  elem r i = (elem x i - elem y i)%Qc /\ covers x i /\ covers y i.
Proof.
  unfold tsub. destruct x as [| fx dx]; [discriminate |].
  destruct y as [| fy dy]; [discriminate |].
  intros H Hi. bind_inv H. injection H as <-.
  exact (broadcast2_at _ _ _ _ _ Hv Hi).
Qed.

Lemma elem_scalar (c : Qc) (i : nat) : elem (scalar c) i = c.
Proof. reflexivity. Qed.

Lemma elem_clamp (lo hi : Qc) (x : tensor) (i : nat) :
  in_range (clamp lo hi x) i ->
  elem (T (clamp lo hi x)) i = clamp1 lo hi (at_ x i).
Proof.
  unfold elem, clamp, in_range. simpl. rewrite length_map. intros Hi.
  destruct (Nat.eq_dec (length x) 1) as [E1 | E1].
  - rewrite !at_one by (rewrite ?length_map; exact E1).
    apply map_nth_in. lia.
  - rewrite !at_nth by (rewrite ?length_map; exact E1).
    apply map_nth_in. lia.
Qed.

Lemma clamp1_bounds (lo hi x : Qc) :
  (lo <= hi)%Qc -> (lo <= clamp1 lo hi x)%Qc /\ (clamp1 lo hi x <= hi)%Qc.
Proof.
  intros Hlh. unfold clamp1, Qc_leb.
  destruct (Qle_bool x lo) eqn:E1.
  - destruct (Qle_bool hi lo) eqn:E2.
    + split; [exact Hlh | apply Qcle_refl].
    + split; [apply Qcle_refl | exact Hlh].
  - destruct (Qle_bool hi x) eqn:E2.
    + split; [exact Hlh | apply Qcle_refl].
    + split.
      * apply Qclt_le_weak. apply Qcnot_le_lt. intros H.
        apply Qle_bool_iff in H. congruence.
      * apply Qclt_le_weak. apply Qcnot_le_lt. intros H.
        apply Qle_bool_iff in H. congruence.
Qed.

Lemma covers_lt (v : pyval) (i : nat) : (i < size0 v)%nat -> covers v i.
Proof. intros H. left. exact H. Qed.

Lemma elem_T (d : tensor) (i : nat) : elem (T d) i = at_ d i.
Proof. reflexivity. Qed.

Lemma broadcast_size_same (n : nat) : broadcast_size n n = n.
Proof. unfold broadcast_size. now rewrite Nat.eqb_refl. Qed.

Lemma broadcast_size_one_l (n : nat) : broadcast_size 1 n = n.
Proof. unfold broadcast_size. destruct (Nat.eqb_spec 1 n); [assumption | reflexivity]. Qed.

Lemma broadcast_size_one_r (n : nat) : broadcast_size n 1 = n.
Proof. unfold broadcast_size. destruct (Nat.eqb_spec n 1); reflexivity. Qed.


(** An operation returns whenever its operands broadcast. *)
Lemma tadd_returns (x y : pyval) :
  size0 x = size0 y \/ size0 x = 1%nat \/ size0 y = 1%nat ->
  exists r, tadd x y = Return r /\ size0 r = broadcast_size (size0 x) (size0 y).
Proof.
  intros H. destruct (broadcast2_total Qcplus (operand x) (operand y) H) as [r Hr].
  exists (T r). unfold tadd. rewrite Hr. split; [reflexivity |].
  exact (broadcast2_length _ _ _ _ Hr).
Qed.

Lemma tmul_returns (x y : pyval) :
  size0 x = size0 y \/ size0 x = 1%nat \/ size0 y = 1%nat ->
  exists r, tmul x y = Return r /\ size0 r = broadcast_size (size0 x) (size0 y).
Proof.
  intros H. destruct (broadcast2_total Qcmult (operand x) (operand y) H) as [r Hr].
  exists (T r). unfold tmul. rewrite Hr. split; [reflexivity |].
  exact (broadcast2_length _ _ _ _ Hr).
Qed.

Lemma tsub_returns (x y : pyval) :
  is_False x = false -> is_False y = false ->
  size0 x = size0 y \/ size0 x = 1%nat \/ size0 y = 1%nat ->
  exists r, tsub x y = Return r /\ is_False r = false
            /\ size0 r = broadcast_size (size0 x) (size0 y).
Proof.
  destruct x as [| fx dx]; [discriminate |].
  destruct y as [| fy dy]; [discriminate |].
  intros _ _ H. destruct (broadcast2_total Qcminus dx dy H) as [r Hr].
  exists (T r). unfold tsub. rewrite Hr. repeat split.
  exact (broadcast2_length _ _ _ _ Hr).
Qed.

Lemma size0_clamp (lo hi : Qc) (x : tensor) : size0 (T (clamp lo hi x)) = length x.
Proof. unfold size0, clamp. simpl. apply length_map. Qed.

Lemma tadd_is_tensor (x y r : pyval) : tadd x y = Return r -> is_False r = false.
Proof. unfold tadd. intros H. bind_inv H. now injection H as <-. Qed.

Lemma tmul_is_tensor (x y r : pyval) : tmul x y = Return r -> is_False r = false.
Proof. unfold tmul. intros H. bind_inv H. now injection H as <-. Qed.

(** Inversion of a computation on the object that returned. *)
Lemma bind_Return {A B : Type} (c : M A) (k : A -> M B) (s s' : LLeaky) (r : B) :
  bind c k s = (Return r, s') ->
  exists a s1, c s = (Return a, s1) /\ k a s1 = (Return r, s').
Proof.
  unfold bind. destruct (c s) as [[a | e] s1]; intros H.
  - exists a, s1. split; [reflexivity | exact H].
  - discriminate H.
Qed.

Lemma reading_Return {A : Type} (f : LLeaky -> outcome A) (s s' : LLeaky) (a : A) :
  reading f s = (Return a, s') -> f s = Return a /\ s' = s.
Proof. unfold reading. intros H. injection H as H1 H2. split; congruence. Qed.

Lemma bind_step {A B : Type} (c : M A) (k : A -> M B) (s s1 : LLeaky) (a : A) :
  c s = (Return a, s1) -> bind c k s = k a s1.
Proof. unfold bind. intros ->. reflexivity. Qed.


(** ** Which exceptions the tensor arithmetic can raise *)

Lemma quiet_Return {A : Type} (a : A) : quiet (Return a).
Proof. intros msg H. discriminate H. Qed.

Lemma quiet_obind {A B : Type} (c : outcome A) (k : A -> outcome B) :
  quiet c -> (forall a, quiet (k a)) -> quiet (obind c k).
Proof.
  intros Hc Hk. destruct c as [a | e]; simpl; [apply Hk |].
  intros msg H. apply (Hc msg). congruence.
Qed.

Lemma quiet_broadcast2 (f : Qc -> Qc -> Qc) (x y : tensor) : quiet (broadcast2 f x y).
Proof.
  intros msg. unfold broadcast2.
  destruct (Nat.eqb (length x) (length y)); [discriminate |].
  destruct x as [| a [| a' x]]; destruct y as [| c [| c' y]]; discriminate.
Qed.

Lemma quiet_tadd (x y : pyval) : quiet (tadd x y).
Proof.
  unfold tadd. apply quiet_obind; [apply quiet_broadcast2 | intros; apply quiet_Return].
Qed.

Lemma quiet_tmul (x y : pyval) : quiet (tmul x y).
Proof.
  unfold tmul. apply quiet_obind; [apply quiet_broadcast2 | intros; apply quiet_Return].
Qed.

Lemma quiet_tsub (x y : pyval) : quiet (tsub x y).
Proof.
  unfold tsub. destruct x as [| fx dx]; [intros msg; discriminate |].
  destruct y as [| fy dy]; [intros msg; discriminate |].
  apply quiet_obind; [apply quiet_broadcast2 | intros; apply quiet_Return].
Qed.

Lemma quiet_getattr {A : Type} (name : string) (field : option A) :
  quiet (getattr name field).
Proof. destruct field; intros msg; discriminate. Qed.

(** ** Composition of computations on the object *)

Lemma quietM_bind {A B : Type} (c : M A) (k : A -> M B) :
  quietM c -> (forall a, quietM (k a)) -> quietM (bind c k).
Proof.
  intros Hc Hk s. unfold bind. specialize (Hc s).
  destruct (c s) as [[a | e] s1]; simpl in *; [apply Hk |].
  intros msg H. apply (Hc msg). congruence.
Qed.

Lemma quietM_ret {A : Type} (a : A) : quietM (ret a).
Proof. intros s. apply quiet_Return. Qed.

Lemma quietM_get : quietM get.
Proof. intros s. apply quiet_Return. Qed.

Lemma quietM_assign (f : LLeaky -> LLeaky) : quietM (assign f).
Proof. intros s. apply quiet_Return. Qed.

Lemma quietM_reading {A : Type} (f : LLeaky -> outcome A) :
  (forall s, quiet (f s)) -> quietM (reading f).
Proof. intros H s. apply H. Qed.

Lemma quietM_lift {A : Type} (c : outcome A) : quiet c -> quietM (lift c).
Proof. intros H s. exact H. Qed.

Section Preservation.

Variable R : LLeaky -> LLeaky -> Prop.
Hypothesis R_refl : forall s, R s s.
Hypothesis R_trans : forall s1 s2 s3, R s1 s2 -> R s2 s3 -> R s1 s3.

Lemma preserves_bind {A B : Type} (c : M A) (k : A -> M B) :
  preserves R c -> (forall a, preserves R (k a)) -> preserves R (bind c k).
Proof.
  intros Hc Hk s. unfold bind. specialize (Hc s).
  destruct (c s) as [[a | e] s1]; simpl in *; [| exact Hc].
  exact (R_trans _ _ _ Hc (Hk a s1)).
Qed.

Lemma preserves_ret {A : Type} (a : A) : preserves R (ret a).
Proof. intros s. apply R_refl. Qed.

Lemma preserves_get : preserves R get.
Proof. intros s. apply R_refl. Qed.

Lemma preserves_reading {A : Type} (f : LLeaky -> outcome A) : preserves R (reading f).
Proof. intros s. apply R_refl. Qed.

Lemma preserves_lift {A : Type} (c : outcome A) : preserves R (lift c).
Proof. intros s. apply R_refl. Qed.

Lemma preserves_assign (f : LLeaky -> LLeaky) :
  (forall s, R s (f s)) -> preserves R (assign f).
Proof. intros H s. apply H. Qed.

End Preservation.

Lemma same_b_refl (s : LLeaky) : same_b s s.
Proof. reflexivity. Qed.

Lemma same_b_trans (s1 s2 s3 : LLeaky) : same_b s1 s2 -> same_b s2 s3 -> same_b s1 s3.
Proof. unfold same_b. congruence. Qed.

(** ** The base integration *)

Section Integration.

Context {E : Env}.

Lemma getattr_Return {A : Type} (name : string) (field : option A) (v : A) :
  getattr name field = Return v -> field = Some v.
Proof. destruct field; simpl; intros H; [now injection H as -> | discriminate]. Qed.

Lemma base_state_function_elem (self : LLeaky) (input_ : tensor) (spk mem r : pyval) :
  _base_state_function self input_ spk mem = Return r ->
  exists recurrent fed,
    self_recurrent self = Some recurrent /\
    recurrent_call recurrent spk = Return fed /\
    forall i, covers r i ->
      elem r i = (beta_eff self i * elem mem i
                  + (1 - beta_eff self i) * (at_ input_ i + elem fed i))%Qc.
Proof.
  unfold _base_state_function. intros H.
  bind_inv H. rename v into decayed, Hv into Hdecayed.
  bind_inv H. rename v into gain, Hv into Hgain.
  bind_inv H. rename v into recurrent, Hv into Hrec.
  bind_inv H. rename v into fed, Hv into Hfed.
  bind_inv H. rename v into drive, Hv into Hdrive.
  bind_inv H. rename v into scaled, Hv into Hscaled.
  apply getattr_Return in Hrec.
  exists recurrent, fed. repeat split; try assumption.
  intros i Hi.
  destruct (tadd_elem _ _ _ _ H Hi) as (-> & Hi1 & Hi2).
  destruct (tmul_elem _ _ _ _ Hdecayed Hi1) as (-> & Hi3 & _).
  destruct (tmul_elem _ _ _ _ Hscaled Hi2) as (-> & Hi4 & Hi5).
  destruct (tsub_elem _ _ _ _ Hgain Hi4) as (-> & _ & Hi6).
  destruct (tadd_elem _ _ _ _ Hdrive Hi5) as (-> & _ & _).
  rewrite (elem_clamp _ _ _ _ Hi3), elem_scalar, elem_T.
  reflexivity.
Qed.

Lemma base_state_function_hidden_elem (self : LLeaky) (input_ : tensor) (r : pyval) :
  _base_state_function_hidden self input_ = Return r ->
  exists recurrent own_spk own_mem fed,
    self_recurrent self = Some recurrent /\
    self_spk self = Some own_spk /\
    self_mem self = Some own_mem /\
    recurrent_call recurrent own_spk = Return fed /\
    forall i, covers r i ->
      elem r i = (beta_eff self i * elem own_mem i + at_ input_ i + elem fed i)%Qc.
Proof.
  unfold _base_state_function_hidden. intros H.
  bind_inv H. rename v into own_mem, Hv into Hmem.
  bind_inv H. rename v into decayed, Hv into Hdecayed.
  bind_inv H. rename v into driven, Hv into Hdriven.
  bind_inv H. rename v into recurrent, Hv into Hrec.
  bind_inv H. rename v into own_spk, Hv into Hspk.
  bind_inv H. rename v into fed, Hv into Hfed.
  apply getattr_Return in Hrec, Hmem, Hspk.
  exists recurrent, own_spk, own_mem, fed. repeat split; try assumption.
  intros i Hi.
  destruct (tadd_elem _ _ _ _ H Hi) as (-> & Hi1 & _).
  destruct (tadd_elem _ _ _ _ Hdriven Hi1) as (-> & Hi2 & _).
  destruct (tmul_elem _ _ _ _ Hdecayed Hi2) as (-> & Hi3 & _).
  rewrite (elem_clamp _ _ _ _ Hi3), elem_T.
  reflexivity.
Qed.

Lemma base_state_function_returns (self : LLeaky) (input_ : tensor)
  (spk mem : pyval) (recurrent : Recurrent) (fed : pyval) (n : nat) :
  self_recurrent self = Some recurrent ->
  recurrent_call recurrent spk = Return fed ->
  length input_ = n -> size0 mem = n -> size0 fed = n ->
  length (self_beta self) = n \/ length (self_beta self) = 1%nat ->
  exists r, _base_state_function self input_ spk mem = Return r
            /\ is_False r = false /\ size0 r = n.
Proof.
  intros Hrec Hfed Hin Hmem Hfedn Hbeta.
  unfold _base_state_function.
  destruct (tmul_returns (T (clamp 0 1 (self_beta self))) mem) as (decayed & -> & Sd).
  { rewrite size0_clamp, Hmem. destruct Hbeta; auto. }
  destruct (tsub_returns (scalar 1) (T (clamp 0 1 (self_beta self))))
    as (gain & -> & _ & Sg); auto.
  rewrite Hrec. simpl. rewrite Hfed. simpl.
  destruct (tadd_returns (T input_) fed) as (drive & -> & Sv).
  { left. unfold size0 at 1. simpl. congruence. }
  simpl.
  assert (Sd' : size0 decayed = n).
  { rewrite Sd, size0_clamp, Hmem. destruct Hbeta as [-> | ->];
      [apply broadcast_size_same | apply broadcast_size_one_l]. }
  assert (Sg' : size0 gain = length (self_beta self)).
  { rewrite Sg, size0_clamp. apply broadcast_size_one_l. }
  assert (Sv' : size0 drive = n).
  { rewrite Sv, Hfedn. unfold size0 at 1. simpl. rewrite Hin.
    apply broadcast_size_same. }
  destruct (tmul_returns gain drive) as (scaled & -> & Ss).
  { rewrite Sg', Sv'. destruct Hbeta; auto. }
  simpl.
  assert (Ss' : size0 scaled = n).
  { rewrite Ss, Sg', Sv'. destruct Hbeta as [-> | ->];
      [apply broadcast_size_same | apply broadcast_size_one_l]. }
  destruct (tadd_returns decayed scaled) as (r & Hr & Sr).
  { left. congruence. }
  exists r. split; [exact Hr |]. split; [exact (tadd_is_tensor _ _ _ Hr) |].
  rewrite Sr, Sd', Ss'. apply broadcast_size_same.
Qed.

Lemma base_state_function_hidden_returns (self : LLeaky) (input_ : tensor)
  (own_spk own_mem : pyval) (recurrent : Recurrent) (fed : pyval) (n : nat) :
  self_recurrent self = Some recurrent ->
  self_spk self = Some own_spk ->
  self_mem self = Some own_mem ->
  recurrent_call recurrent own_spk = Return fed ->
  length input_ = n -> size0 own_mem = n -> size0 fed = n ->
  length (self_beta self) = n \/ length (self_beta self) = 1%nat ->
  exists r, _base_state_function_hidden self input_ = Return r
            /\ is_False r = false /\ size0 r = n.
Proof.
  intros Hrec Hspk Hmem Hfed Hin Hmemn Hfedn Hbeta.
  unfold _base_state_function_hidden. rewrite Hmem. simpl.
  destruct (tmul_returns (T (clamp 0 1 (self_beta self))) own_mem) as (decayed & -> & Sd).
  { rewrite size0_clamp, Hmemn. destruct Hbeta; auto. }
  simpl.
  assert (Sd' : size0 decayed = n).
  { rewrite Sd, size0_clamp, Hmemn. destruct Hbeta as [-> | ->];
      [apply broadcast_size_same | apply broadcast_size_one_l]. }
  destruct (tadd_returns decayed (T input_)) as (driven & -> & Sv).
  { left. rewrite Sd'. unfold size0. simpl. congruence. }
  simpl. rewrite Hrec, Hspk. simpl. rewrite Hfed. simpl.
  assert (Sv' : size0 driven = n).
  { rewrite Sv, Sd'. unfold size0 at 1. simpl. rewrite Hin.
    apply broadcast_size_same. }
  destruct (tadd_returns driven fed) as (r & Hr & Sr).
  { left. congruence. }
  exists r. split; [exact Hr |]. split; [exact (tadd_is_tensor _ _ _ Hr) |].
  rewrite Sr, Sv', Hfedn. apply broadcast_size_same.
Qed.

(** C1: with explicit state the base integration of a unit is
    [beta_eff * potential + (1 - beta_eff) * (input + feedback)]; with owned
    state it is [beta_eff * potential + input + feedback], without the
    [(1 - beta_eff)] factor; in both, [beta_eff] is the decay clamped to
    [0, 1].  Both functions return on operands of one size. *)
Theorem base_integration_per_convention
  (self : LLeaky) (input_ : tensor) (spk mem own_spk own_mem : pyval)
  (recurrent : Recurrent) (fed fed_own : pyval) (n : nat) :
  self_recurrent self = Some recurrent ->
  recurrent_call recurrent spk = Return fed ->
  self_spk self = Some own_spk ->
  self_mem self = Some own_mem ->
  recurrent_call recurrent own_spk = Return fed_own ->
  length input_ = n -> size0 mem = n -> size0 fed = n ->
  size0 own_mem = n -> size0 fed_own = n ->
  length (self_beta self) = n \/ length (self_beta self) = 1%nat ->
  exists base base_hidden,
    _base_state_function self input_ spk mem = Return base /\
    _base_state_function_hidden self input_ = Return base_hidden /\
    size0 base = n /\ size0 base_hidden = n /\
    forall i, (i < n)%nat ->
      elem base i = (beta_eff self i * elem mem i
                     + (1 - beta_eff self i) * (at_ input_ i + elem fed i))%Qc /\
      elem base_hidden i = (beta_eff self i * elem own_mem i
                            + at_ input_ i + elem fed_own i)%Qc /\
      (0 <= beta_eff self i)%Qc /\ (beta_eff self i <= 1)%Qc.
Proof.
  intros Hrec Hfed Hspk Hmem Hfedo Hin Hmemn Hfedn Hown Hfedon Hbeta.
  destruct (base_state_function_returns self input_ spk mem recurrent fed n)
    as (base & Hbase & _ & Sb); try assumption.
  destruct (base_state_function_hidden_returns self input_ own_spk own_mem
              recurrent fed_own n) as (base_h & Hbase_h & _ & Sh); try assumption.
  exists base, base_h. repeat split; try assumption.
  - destruct (base_state_function_elem _ _ _ _ _ Hbase) as (r' & fed' & Hr' & Hf' & Hel).
    assert (r' = recurrent) by congruence. subst r'.
    assert (fed' = fed) by congruence. subst fed'.
    apply Hel. apply covers_lt. lia.
  - destruct (base_state_function_hidden_elem _ _ _ Hbase_h)
      as (r' & s' & m' & fed' & Hr' & Hs' & Hm' & Hf' & Hel).
    assert (r' = recurrent) by congruence. subst r'.
    assert (s' = own_spk) by congruence. subst s'.
    assert (m' = own_mem) by congruence. subst m'.
    assert (fed' = fed_own) by congruence. subst fed'.
    apply Hel. apply covers_lt. lia.
  - apply clamp1_bounds. discriminate.
  - apply clamp1_bounds. discriminate.
Qed.

End Integration.

(** Equality of concrete rationals, after evaluation. *)
Ltac qc_eq :=
  vm_compute;
  repeat match goal with
         | |- Return _ = Return _ => apply f_equal
         | |- Some _ = Some _ => apply f_equal
         | |- Tensor _ _ = Tensor _ _ => apply f_equal
         | |- cons _ _ = cons _ _ => apply f_equal2
         | |- @eq Qc _ _ => apply Qc_is_canon; reflexivity
         | |- _ => reflexivity
         end.

Lemma base_integration_per_convention_witness :
  exists base base_hidden,
    _base_state_function (E := reference_env) (stepped_layer "none")
      [1%Qc] (T [1%Qc]) (T [half]) = Return base /\
    _base_state_function_hidden (E := reference_env) (stepped_layer "none")
      [1%Qc] = Return base_hidden /\
    size0 base = 1%nat /\ size0 base_hidden = 1%nat /\
    forall i, (i < 1)%nat ->
      elem base i = (beta_eff (stepped_layer "none") i * elem (T [half]) i
                     + (1 - beta_eff (stepped_layer "none") i)
                       * (at_ [1%Qc] i + elem (T [0%Qc]) i))%Qc /\
      elem base_hidden i = (beta_eff (stepped_layer "none") i * elem (T [1%Qc]) i
                            + at_ [1%Qc] i + elem (T [0%Qc]) i)%Qc /\
      (0 <= beta_eff (stepped_layer "none") i)%Qc /\
      (beta_eff (stepped_layer "none") i <= 1)%Qc.
Proof.
  apply (base_integration_per_convention (E := reference_env)
           (stepped_layer "none") [1%Qc] (T [1%Qc]) (T [half]) (T [1%Qc]) (T [1%Qc])
           (RecurrentOneToOne [0%Qc]) (T [0%Qc]) (T [0%Qc]) 1).
  - reflexivity.
  - qc_eq.
  - reflexivity.
  - qc_eq.
  - qc_eq.
  - reflexivity.
  - reflexivity.
  - reflexivity.
  - reflexivity.
  - reflexivity.
  - left. reflexivity.
Defined.

(** ** The adaptation trace and the threshold *)

Section Adaptation.

Context {E : Env}.

Lemma b_state_function_elem (self : LLeaky) (spk b b' : pyval) :
  _b_state_function self spk b = Return b' ->
  forall i, covers b' i ->
    elem b' i = (self_rho_b self * elem b i + (1 - self_rho_b self) * elem spk i)%Qc.
Proof.
  unfold _b_state_function. intros H i Hi.
  bind_inv H. rename v into decayed, Hv into Hdecayed.
  bind_inv H. rename v into gained, Hv into Hgained.
  destruct (tadd_elem _ _ _ _ H Hi) as (-> & Hi1 & Hi2).
  destruct (tmul_elem _ _ _ _ Hdecayed Hi1) as (-> & _ & _).
  destruct (tmul_elem _ _ _ _ Hgained Hi2) as (-> & _ & _).
  rewrite !elem_scalar. reflexivity.
Qed.

Lemma get_new_thresh_elem (self : LLeaky) (b thresh : pyval) :
  _get_new_thresh self b = Return thresh ->
  forall i, covers thresh i ->
    elem thresh i = (at_ (self_threshold self) i + elem b i * self_thresh_beta self)%Qc.
Proof.
  unfold _get_new_thresh. intros H i Hi.
  bind_inv H. rename v into scaled, Hv into Hscaled.
  destruct (tadd_elem _ _ _ _ H Hi) as (-> & _ & Hi2).
  destruct (tmul_elem _ _ _ _ Hscaled Hi2) as (-> & _ & _).
  rewrite elem_scalar, elem_T. reflexivity.
Qed.

Lemma b_state_function_returns (self : LLeaky) (spk b : pyval) (n : nat) :
  size0 spk = n -> size0 b = n ->
  exists b', _b_state_function self spk b = Return b'
             /\ is_False b' = false /\ size0 b' = n.
Proof.
  intros Hspk Hb. unfold _b_state_function.
  destruct (tmul_returns (scalar (self_rho_b self)) b) as (decayed & -> & Sd); auto.
  destruct (tmul_returns (scalar (1 - self_rho_b self)) spk) as (gained & -> & Sg); auto.
  simpl. rewrite broadcast_size_one_l in Sd, Sg.
  destruct (tadd_returns decayed gained) as (b' & Hb' & Sb); [left; congruence |].
  exists b'. split; [exact Hb' |]. split; [exact (tadd_is_tensor _ _ _ Hb') |].
  rewrite Sb, Sd, Sg, Hb, Hspk. apply broadcast_size_same.
Qed.

Lemma get_new_thresh_returns (self : LLeaky) (b : pyval) (n : nat) :
  size0 b = n ->
  length (self_threshold self) = n \/ length (self_threshold self) = 1%nat ->
  exists thresh, _get_new_thresh self b = Return thresh
                 /\ is_False thresh = false /\ size0 thresh = n.
Proof.
  intros Hb Hth. unfold _get_new_thresh.
  destruct (tmul_returns b (scalar (self_thresh_beta self))) as (scaled & -> & Ss); auto.
  simpl. rewrite broadcast_size_one_r in Ss.
  destruct (tadd_returns (T (self_threshold self)) scaled) as (thresh & Hthresh & St).
  { unfold size0 at 1 3. simpl. rewrite Ss, Hb. destruct Hth; auto. }
  exists thresh. split; [exact Hthresh |]. split; [exact (tadd_is_tensor _ _ _ Hthresh) |].
  rewrite St, Ss, Hb. unfold size0. simpl.
  destruct Hth as [-> | ->]; [apply broadcast_size_same | apply broadcast_size_one_l].
Qed.

(** The trace the explicit step returns is the one [_b_state_function]
    computed from the arguments. *)
Lemma forward_explicit_trace (self final : LLeaky) (input_ : tensor)
  (spk mem b : pyval) (r : forward_result) :
  forward_explicit input_ spk mem b self = (Return r, final) ->
  exists spk' mem' b',
    r = Spk_mem_b spk' mem' b' /\ _b_state_function self spk b = Return b'.
Proof.
  unfold forward_explicit. intros H.
  apply bind_Return in H. destruct H as (b' & s1 & Hb & H).
  apply reading_Return in Hb. destruct Hb as [Hb ->].
  apply bind_Return in H. destruct H as (thresh & s2 & Ht & H).
  apply reading_Return in Ht. destruct Ht as [Ht ->].
  apply bind_Return in H. destruct H as (s3 & s4 & Hg & H).
  apply bind_Return in H. destruct H as (u & s5 & Ha & H).
  apply bind_Return in H. destruct H as (mem' & s6 & Hm & H).
  apply bind_Return in H. destruct H as (s7 & s8 & Hg' & H).
  unfold ret in H. injection H as <- _.
  eauto.
Qed.

(** C2: the new trace of a unit is [rho_b * b + (1 - rho_b) * spike_prev]
    and its threshold [base_threshold + b' * thresh_coupling]; the trace is
    the same in any layer with the same [rho_b], whatever its potential,
    threshold or input, and it is the trace the explicit step returns. *)
Theorem adaptation_trace_and_threshold
  (self other : LLeaky) (input_ : tensor) (spk mem b : pyval) (n : nat) :
  size0 spk = n -> size0 b = n ->
  length (self_threshold self) = n \/ length (self_threshold self) = 1%nat ->
  self_rho_b other = self_rho_b self ->
  exists b' thresh,
    _b_state_function self spk b = Return b' /\
    _get_new_thresh self b' = Return thresh /\
    (forall i, (i < n)%nat ->
       elem b' i = (self_rho_b self * elem b i
                    + (1 - self_rho_b self) * elem spk i)%Qc /\
       elem thresh i = (at_ (self_threshold self) i
                        + elem b' i * self_thresh_beta self)%Qc) /\
    _b_state_function other spk b = Return b' /\
    (forall r final,
       forward_explicit input_ spk mem b self = (Return r, final) ->
       exists spk' mem', r = Spk_mem_b spk' mem' b').
Proof.
  intros Hspk Hb Hth Hrho.
  destruct (b_state_function_returns self spk b n Hspk Hb) as (b' & Hb' & _ & Sb).
  destruct (get_new_thresh_returns self b' n Sb Hth) as (thresh & Hthresh & _ & St).
  exists b', thresh. repeat split; try assumption.
  - apply (b_state_function_elem _ _ _ _ Hb'). apply covers_lt. lia.
  - apply (get_new_thresh_elem _ _ _ Hthresh). apply covers_lt. lia.
  - unfold _b_state_function in *. rewrite Hrho. exact Hb'.
  - intros r final H.
    destruct (forward_explicit_trace _ _ _ _ _ _ _ H) as (spk' & mem' & b'' & -> & Hb'').
    exists spk', mem'. congruence.
Qed.

End Adaptation.

Lemma adaptation_trace_and_threshold_witness :
  exists b' thresh,
    _b_state_function (unit_layer false "subtract") (T [1%Qc]) (T [half]) = Return b' /\
    _get_new_thresh (unit_layer false "subtract") b' = Return thresh /\
    (forall i, (i < 1)%nat ->
       elem b' i = (self_rho_b (unit_layer false "subtract") * elem (T [half]) i
                    + (1 - self_rho_b (unit_layer false "subtract"))
                      * elem (T [1%Qc]) i)%Qc /\
       elem thresh i = (at_ (self_threshold (unit_layer false "subtract")) i
                        + elem b' i * self_thresh_beta (unit_layer false "subtract"))%Qc) /\
    _b_state_function (stepped_layer "zero") (T [1%Qc]) (T [half]) = Return b' /\
    (forall r final,
       forward_explicit (E := reference_env) [1%Qc] (T [1%Qc]) (T [0%Qc]) (T [half])
         (unit_layer false "subtract") = (Return r, final) ->
       exists spk' mem', r = Spk_mem_b spk' mem' b').
Proof.
  apply (adaptation_trace_and_threshold (E := reference_env)
           (unit_layer false "subtract") (stepped_layer "zero")
           [1%Qc] (T [1%Qc]) (T [0%Qc]) (T [half]) 1).
  - reflexivity.
  - reflexivity.
  - left. reflexivity.
  - reflexivity.
Defined.

(** The scenario of the specification, two steps: the potential reaches
    1/2 and the unit spikes; the next step subtracts the threshold first and
    lands on 1/2 again. *)
Lemma scenario_two_steps :
  exists spk1 mem1 b1 after1 spk2 mem2 b2 after2,
    forward (E := reference_env) [1%Qc] (T [0%Qc]) (T [0%Qc]) (T [0%Qc]) scenario_layer
    = (Return (Spk_mem_b spk1 mem1 b1), after1)
    /\ forward (E := reference_env) [1%Qc] spk1 mem1 b1 after1
       = (Return (Spk_mem_b spk2 mem2 b2), after2)
    /\ (elem spk1 0 = 1 /\ elem mem1 0 = half)%Qc
    /\ (elem spk2 0 = 1 /\ elem mem2 0 = half)%Qc
    /\ self_reset after2 = Some (T [1%Qc]).
Proof.
  do 8 eexists.
  split; [vm_compute; reflexivity |].
  split; [vm_compute; reflexivity |].
  repeat split; apply Qc_is_canon; reflexivity.
Qed.

(** ** The reset policies *)

Section Reset.

Context {E : Env}.

Lemma sub_scaled_returns (x reset y : pyval) (n : nat) :
  is_False x = false -> size0 x = n -> size0 reset = n -> size0 y = n ->
  exists amount r,
    tmul reset y = Return amount /\ tsub x amount = Return r /\
    is_False r = false /\ size0 r = n /\
    forall i, (i < n)%nat -> elem r i = (elem x i - elem reset i * elem y i)%Qc.
Proof.
  intros Hx Sx Sr Sy.
  destruct (tmul_returns reset y) as (amount & Ha & Sa); [left; congruence |].
  rewrite Sr, Sy, broadcast_size_same in Sa.
  destruct (tsub_returns x amount Hx (tmul_is_tensor _ _ _ Ha))
    as (r & Hr & Fr & Sz); [left; congruence |].
  rewrite Sx, Sa, broadcast_size_same in Sz.
  exists amount, r. repeat split; try assumption.
  intros i Hi.
  assert (Hc : covers r i) by (apply covers_lt; lia).
  destruct (tsub_elem _ _ _ _ Hr Hc) as (-> & _ & Hc2).
  destruct (tmul_elem _ _ _ _ Ha Hc2) as (-> & _ & _).
  reflexivity.
Qed.

Lemma sub_scaled_broadcast_returns (x reset : pyval) (y : tensor) (n : nat) :
  is_False x = false -> size0 x = n -> size0 reset = n ->
  length y = n \/ length y = 1%nat ->
  exists amount r,
    tmul reset (T y) = Return amount /\ tsub x amount = Return r /\
    is_False r = false /\ size0 r = n /\
    forall i, (i < n)%nat -> elem r i = (elem x i - elem reset i * at_ y i)%Qc.
Proof.
  intros Hx Sx Sr Sy.
  destruct (tmul_returns reset (T y)) as (amount & Ha & Sa).
  { unfold size0 at 2 4. simpl. rewrite Sr. destruct Sy; auto. }
  assert (Sa' : size0 amount = n).
  { rewrite Sa, Sr. unfold size0. simpl.
    destruct Sy as [-> | ->]; [apply broadcast_size_same | apply broadcast_size_one_r]. }
  destruct (tsub_returns x amount Hx (tmul_is_tensor _ _ _ Ha))
    as (r & Hr & Fr & Sz); [left; congruence |].
  rewrite Sx, Sa', broadcast_size_same in Sz.
  exists amount, r. repeat split; try assumption.
  intros i Hi.
  assert (Hc : covers r i) by (apply covers_lt; lia).
  destruct (tsub_elem _ _ _ _ Hr Hc) as (-> & _ & Hc2).
  destruct (tmul_elem _ _ _ _ Ha Hc2) as (-> & _ & _).
  rewrite elem_T. reflexivity.
Qed.

(** C3: under the subtract policy the explicit step integrates from the
    potential lowered by [reset * threshold], with the threshold it is
    passed; the owned-state step integrates from the stored potential and
    subtracts [reset * threshold] from the result. *)
Theorem subtract_reset_per_convention
  (self : LLeaky) (input_ : tensor) (spk mem thresh reset own_spk own_mem : pyval)
  (recurrent : Recurrent) (fed fed_own : pyval) (n : nat) :
  self_reset_mechanism_val self = 0%Z ->
  self_reset self = Some reset ->
  self_recurrent self = Some recurrent ->
  recurrent_call recurrent spk = Return fed ->
  self_spk self = Some own_spk ->
  self_mem self = Some own_mem ->
  recurrent_call recurrent own_spk = Return fed_own ->
  is_False mem = false ->
  length input_ = n -> size0 mem = n -> size0 thresh = n -> size0 reset = n ->
  size0 fed = n -> size0 own_mem = n -> size0 fed_own = n ->
  length (self_beta self) = n \/ length (self_beta self) = 1%nat ->
  length (self_threshold self) = n \/ length (self_threshold self) = 1%nat ->
  exists lowered new base_hidden new_hidden,
    _build_state_function self input_ spk mem thresh = Return new /\
    _base_state_function self input_ spk lowered = Return new /\
    _build_state_function_hidden self input_ = Return new_hidden /\
    _base_state_function_hidden self input_ = Return base_hidden /\
    forall i, (i < n)%nat ->
      elem lowered i = (elem mem i - elem reset i * elem thresh i)%Qc /\
      elem new_hidden i = (elem base_hidden i
                           - elem reset i * at_ (self_threshold self) i)%Qc.
Proof.
  intros Hmech Hreset Hrec Hfed Hspk Hmem Hfedo Hmemf Hin Smem Sth Sreset Sfed
    Sown Sfedo Hbeta Hthr.
  destruct (sub_scaled_returns mem reset thresh n Hmemf Smem Sreset Sth)
    as (amount & lowered & Ha & Hl & Fl & Sl & El).
  destruct (base_state_function_returns self input_ spk lowered recurrent fed n)
    as (new & Hnew & _ & Snew); try assumption.
  destruct (base_state_function_hidden_returns self input_ own_spk own_mem
              recurrent fed_own n) as (base_h & Hbase_h & Fh & Sh); try assumption.
  destruct (sub_scaled_broadcast_returns base_h reset (self_threshold self) n
              Fh Sh Sreset Hthr) as (amount_h & new_h & Hah & Hnh & _ & _ & Eh).
  exists lowered, new, base_h, new_h. repeat split; try assumption.
  - unfold _build_state_function. rewrite Hmech, Hreset. simpl.
    rewrite Ha. simpl. rewrite Hl. simpl. exact Hnew.
  - unfold _build_state_function_hidden. rewrite Hmech. simpl.
    rewrite Hbase_h, Hreset. simpl. rewrite Hah. simpl. exact Hnh.
  - apply El. assumption.
  - apply Eh. assumption.
Qed.

(** Under the zero policy both builders return, per unit, the base
    integration minus the reset signal times the base integration. *)
Lemma zero_reset_expression
  (self : LLeaky) (input_ : tensor) (spk mem thresh reset own_spk own_mem : pyval)
  (recurrent : Recurrent) (fed fed_own : pyval) (n : nat) :
  self_reset_mechanism_val self = 1%Z ->
  self_reset self = Some reset ->
  self_recurrent self = Some recurrent ->
  recurrent_call recurrent spk = Return fed ->
  self_spk self = Some own_spk ->
  self_mem self = Some own_mem ->
  recurrent_call recurrent own_spk = Return fed_own ->
  length input_ = n -> size0 mem = n -> size0 reset = n ->
  size0 fed = n -> size0 own_mem = n -> size0 fed_own = n ->
  length (self_beta self) = n \/ length (self_beta self) = 1%nat ->
  exists base new base_hidden new_hidden,
    _base_state_function self input_ spk mem = Return base /\
    _build_state_function self input_ spk mem thresh = Return new /\
    _base_state_function_hidden self input_ = Return base_hidden /\
    _build_state_function_hidden self input_ = Return new_hidden /\
    forall i, (i < n)%nat ->
      elem new i = (elem base i - elem reset i * elem base i)%Qc /\
      elem new_hidden i
      = (elem base_hidden i - elem reset i * elem base_hidden i)%Qc.
Proof.
  intros Hmech Hreset Hrec Hfed Hspk Hmem Hfedo Hin Smem Sreset Sfed
    Sown Sfedo Hbeta.
  destruct (base_state_function_returns self input_ spk mem recurrent fed n)
    as (base & Hbase & Fb & Sb); try assumption.
  destruct (base_state_function_hidden_returns self input_ own_spk own_mem
              recurrent fed_own n) as (base_h & Hbase_h & Fh & Sh); try assumption.
  destruct (sub_scaled_returns base reset base n Fb Sb Sreset Sb)
    as (amount & new & Ha & Hn & _ & _ & En).
  destruct (sub_scaled_returns base_h reset base_h n Fh Sh Sreset Sh)
    as (amount_h & new_h & Hah & Hnh & _ & _ & Eh).
  exists base, new, base_h, new_h.
  split; [exact Hbase |]. split; [| split; [exact Hbase_h | split]].
  - unfold _build_state_function. rewrite Hmech. simpl.
    rewrite Hbase, Hreset. simpl. rewrite Ha. simpl. exact Hn.
  - unfold _build_state_function_hidden. rewrite Hmech. simpl.
    rewrite Hbase_h, Hreset. simpl. rewrite Hah. simpl. exact Hnh.
  - intros i Hi. split; [apply En | apply Eh]; exact Hi.
Qed.

End Reset.

Lemma subtract_reset_per_convention_witness :
  exists lowered new base_hidden new_hidden,
    _build_state_function (resetting_layer "subtract") [1%Qc] (T [1%Qc]) (T [1%Qc])
      (T [half]) = Return new /\
    _base_state_function (resetting_layer "subtract") [1%Qc] (T [1%Qc]) lowered
      = Return new /\
    _build_state_function_hidden (resetting_layer "subtract") [1%Qc]
      = Return new_hidden /\
    _base_state_function_hidden (resetting_layer "subtract") [1%Qc]
      = Return base_hidden /\
    forall i, (i < 1)%nat ->
      elem lowered i = (elem (T [1%Qc]) i - elem (T [1%Qc]) i * elem (T [half]) i)%Qc /\
      elem new_hidden i =
        (elem base_hidden i
         - elem (T [1%Qc]) i * at_ (self_threshold (resetting_layer "subtract")) i)%Qc.
Proof.
  apply (subtract_reset_per_convention (E := reference_env)
           (resetting_layer "subtract") [1%Qc] (T [1%Qc]) (T [1%Qc]) (T [half])
           (T [1%Qc]) (T [1%Qc]) (T [1%Qc]) (RecurrentOneToOne [0%Qc])
           (T [0%Qc]) (T [0%Qc]) 1).
  - reflexivity.
  - reflexivity.
  - reflexivity.
  - qc_eq.
  - reflexivity.
  - qc_eq.
  - qc_eq.
  - reflexivity.
  - reflexivity.
  - reflexivity.
  - reflexivity.
  - reflexivity.
  - reflexivity.
  - reflexivity.
  - reflexivity.
  - left. reflexivity.
  - left. reflexivity.
Defined.

(** The owned-state step does not integrate from the lowered potential:
    with decay 1/2, stored potential 1, reset 1 and threshold 1/2 it ends
    at 0, while integrating from 1 - 1/2 would give 1/4. *)
Lemma subtract_hidden_counterexample :
  exists amount lowered new_hidden,
    self_reset_mechanism_val (resetting_layer "subtract") = 0%Z /\
    self_mem (resetting_layer "subtract") = Some (T [1%Qc]) /\
    self_reset (resetting_layer "subtract") = Some (T [1%Qc]) /\
    tmul (T [1%Qc]) (T (self_threshold (resetting_layer "subtract")))
      = Return amount /\
    tsub (T [1%Qc]) amount = Return lowered /\
    _build_state_function_hidden (E := reference_env)
      (resetting_layer "subtract") [0%Qc] = Return new_hidden /\
    _base_state_function_hidden (E := reference_env)
      (set_mem lowered (resetting_layer "subtract")) [0%Qc] <> Return new_hidden.
Proof.
  exists (T [half]), (T [half]), (T [0%Qc]).
  split; [reflexivity |]. split; [qc_eq |]. split; [reflexivity |].
  split; [qc_eq |]. split; [qc_eq |]. split; [qc_eq |].
  intros H. vm_compute in H. discriminate H.
Qed.

(** ** The zero policy in binary32 *)

Lemma shr_23_exact (m : positive) :
  iter_pos shr_1 23
    {| shr_m := Z.pos (8388608 * m); shr_r := false; shr_s := false |}
  = {| shr_m := Z.pos m; shr_r := false; shr_s := false |}.
Proof. reflexivity. Qed.

Lemma digits2_shifted_23 (m : positive) :
  Zdigits2 (Z.pos (8388608 * m)) = (Z.pos (digits2_pos m) + 23)%Z.
Proof.
  change (8388608 * m)%positive
    with (m~0~0~0~0~0~0~0~0~0~0~0~0~0~0~0~0~0~0~0~0~0~0~0)%positive.
  cbn [Zdigits2 digits2_pos]. lia.
Qed.

(** Rounding the product of a binary32 number with 1 gives it back. *)
Lemma round_canonical (s : bool) (m : positive) (e : Z) :
  bounded 24 128 m e = true ->
  binary_round_aux 24 128 s (Z.pos (8388608 * m)) (-23 + e) loc_Exact
  = S754_finite s m e.
Proof.
  intros Hb. unfold bounded, canonical_mantissa in Hb.
  apply andb_prop in Hb. destruct Hb as [Hc He].
  apply Z.eqb_eq in Hc.
  unfold binary_round_aux, shr_fexp.
  rewrite digits2_shifted_23.
  replace (Z.pos (digits2_pos m) + 23 + (-23 + e))%Z
    with (Z.pos (digits2_pos m) + e)%Z by lia.
  rewrite Hc.
  replace (e - (-23 + e))%Z with 23%Z by lia.
  unfold shr_record_of_loc at 1. unfold shr at 1.
  rewrite shr_23_exact.
  cbn [shr_m loc_of_shr_record round_nearest_even].
  replace (-23 + e + 23)%Z with e by lia.
  cbn [Zdigits2]. rewrite Hc, Z.sub_diag.
  cbn [shr shr_record_of_loc shr_m]. now rewrite He.
Qed.

Lemma f32_mul_one (x : f32) :
  f32_finite x = true -> f32_mul f32_one x = x.
Proof.
  destruct x as [s | s | | s m e]; try discriminate; intros H.
  - reflexivity.
  - exact (round_canonical s m e H).
Qed.

Lemma f32_sub_self (x : f32) :
  f32_finite x = true -> f32_sub x x = f32_zero.
Proof.
  destruct x as [[] | s | | s m e]; try discriminate; intros _; try reflexivity.
  unfold f32_sub, SFsub. now rewrite Z.sub_diag.
Qed.

Lemma f32_eqb_refl (x : f32) : f32_finite x = true -> f32_eqb x x = true.
Proof.
  destruct x as [s | s | | s m e]; try discriminate; intros _; [reflexivity |].
  unfold f32_eqb, SFeqb, SFcompare.
  rewrite Z.compare_refl, Pos.compare_cont_refl. now destruct s.
Qed.

Lemma f32_mul_zero (s : bool) (x : f32) :
  f32_finite x = true -> exists s', f32_mul (S754_zero s) x = S754_zero s'.
Proof.
  destruct x as [s0 | s0 | | s0 m e]; try discriminate; intros _;
    eexists; reflexivity.
Qed.

(** Subtracting or adding a zero leaves a finite number as it is, up to the
    sign of a zero. *)
Lemma f32_sub_zero (x : f32) (s : bool) :
  f32_finite x = true -> f32_eqb (f32_sub x (S754_zero s)) x = true.
Proof.
  destruct x as [s0 | s0 | | s0 m e]; try discriminate; intros H.
  - now destruct s0, s.
  - exact (f32_eqb_refl (S754_finite s0 m e) H).
Qed.

(** The expression of lines 397-400 and 419-422 on a finite base
    integration. *)
Lemma f32_zero_reset_finite (x : f32) :
  f32_finite x = true ->
  f32_sub x (f32_mul f32_one x) = f32_zero
  /\ f32_eqb (f32_sub x (f32_mul f32_zero x)) x = true.
Proof.
  intros H. split.
  - rewrite (f32_mul_one x H). exact (f32_sub_self x H).
  - destruct (f32_mul_zero false x H) as [s' Hs]. unfold f32_zero. rewrite Hs.
    exact (f32_sub_zero x s' H).
Qed.

(** C4: under the zero policy, in both conventions, a unit whose base
    integration is a finite binary32 number ends the step at potential 0
    when its reset signal is 1, whatever the decay, the potential, the
    input and the feedback of the previous spike that gave this base
    integration, and at its base integration when its reset signal is 0. *)
Theorem zero_reset_finite (beta mem input_ fed_back : f32) :
  (f32_finite (f32_base_state_function beta mem input_ fed_back) = true ->
   f32_build_state_function_zero beta mem input_ fed_back f32_one = f32_zero
   /\ f32_eqb (f32_build_state_function_zero beta mem input_ fed_back f32_zero)
              (f32_base_state_function beta mem input_ fed_back) = true)
  /\ (f32_finite (f32_base_state_function_hidden beta mem input_ fed_back) = true ->
      f32_build_state_function_hidden_zero beta mem input_ fed_back f32_one = f32_zero
      /\ f32_eqb (f32_build_state_function_hidden_zero beta mem input_ fed_back f32_zero)
                 (f32_base_state_function_hidden beta mem input_ fed_back) = true).
Proof.
  split; intros H; apply (f32_zero_reset_finite _ H).
Qed.

Lemma zero_reset_finite_witness :
  f32_finite (f32_base_state_function f32_half f32_one f32_one f32_zero) = true
  /\ f32_finite (f32_base_state_function_hidden f32_half f32_one f32_one f32_zero) = true
  /\ (f32_build_state_function_zero f32_half f32_one f32_one f32_zero f32_one = f32_zero
      /\ f32_eqb (f32_build_state_function_zero f32_half f32_one f32_one f32_zero f32_zero)
                 (f32_base_state_function f32_half f32_one f32_one f32_zero) = true)
  /\ (f32_build_state_function_hidden_zero f32_half f32_one f32_one f32_zero f32_one
      = f32_zero
      /\ f32_eqb (f32_build_state_function_hidden_zero f32_half f32_one f32_one f32_zero
                    f32_zero)
                 (f32_base_state_function_hidden f32_half f32_one f32_one f32_zero) = true).
Proof.
  split; [reflexivity |]. split; [reflexivity |].
  destruct (zero_reset_finite f32_half f32_one f32_one f32_zero) as [He Hh].
  split; [apply He | apply Hh]; reflexivity.
Defined.

(** A unit with decay 1/2 whose potential and input are both the binary32
    number nearest to 3e38, the potential an owned-state unit has after a
    first step on that input.  In the owned-state convention the base
    integration [0.5 * mem + input] overflows to infinity, and
    [inf - 1 * inf] is NaN: the unit is reset and its potential is not 0.
    In the explicit convention the same happens once the feedback is as
    large, and with reset signal 0 the result is NaN as well and not the
    base integration. *)
Lemma zero_reset_overflow_counterexample :
  f32_finite f32_half = true /\ f32_finite f32_big = true
  /\ f32_build_state_function_hidden_zero f32_half f32_zero f32_big f32_zero f32_zero
     = f32_big
  /\ f32_base_state_function_hidden f32_half f32_big f32_big f32_zero = f32_inf
  /\ f32_build_state_function_hidden_zero f32_half f32_big f32_big f32_zero f32_one
     = f32_nan
  /\ f32_build_state_function_hidden_zero f32_half f32_big f32_big f32_zero f32_one
     <> f32_zero
  /\ f32_base_state_function f32_half f32_big f32_big f32_big = f32_inf
  /\ f32_build_state_function_zero f32_half f32_big f32_big f32_big f32_one = f32_nan
  /\ f32_build_state_function_zero f32_half f32_big f32_big f32_big f32_zero = f32_nan
  /\ f32_eqb (f32_build_state_function_zero f32_half f32_big f32_big f32_big f32_zero)
             (f32_base_state_function f32_half f32_big f32_big f32_big) = false.
Proof.
  repeat split; try (vm_compute; reflexivity).
  vm_compute. discriminate.
Qed.

(** ** The configuration validator *)

Section Validator.

Context {E : Env}.

Lemma init_cases_table (self : LLeaky) :
  let given_all := self_all_to_all self in
  let given_linear := truthy_int (self_linear_features self) in
  let given_channels := truthy_int (self_conv2d_channels self) in
  let given_kernel := truthy_kernel (self_kernel_size self) in
  ((exists e, _lleaky_init_cases self = Raise e)
   <-> table_rejects given_all given_linear given_channels given_kernel)
  /\ (_lleaky_init_cases self = Return tt
      <-> table_accepts given_all given_linear given_channels given_kernel).
Proof.
  unfold _lleaky_init_cases, table_rejects, table_accepts.
  destruct (self_all_to_all self), (truthy_int (self_linear_features self)),
    (truthy_int (self_conv2d_channels self)), (truthy_kernel (self_kernel_size self));
    simpl; (split; split);
    try (intros [e He]; discriminate He);
    try (intros He; discriminate He);
    try (intros _; eexists; reflexivity);
    try (intros _; reflexivity);
    try (intros; intuition (discriminate || congruence || auto)).
Qed.

(** For a size that is not 0 the validator's test is "is not None". *)
Lemma truthy_is_not_None (x : option Z) (k : option kernel) :
  x <> Some 0%Z -> k <> Some (KInt 0) ->
  truthy_int x = is_not_None x /\ truthy_kernel k = is_not_None k.
Proof.
  intros Hx Hk. split.
  - destruct x as [z |]; [| reflexivity]. simpl.
    destruct (Z.eqb_spec z 0); [subst; contradiction | reflexivity].
  - destruct k as [[z | k0 k1] |]; try reflexivity. simpl.
    destruct (Z.eqb_spec z 0); [subst; contradiction | reflexivity].
Qed.

Lemma init_body_rejected (a : Args) (self : LLeaky) (e : exn) :
  _lleaky_init_cases self = Raise e -> init_body a self = (Raise e, self).
Proof. intros H. unfold init_body, bind, reading. now rewrite H. Qed.

Lemma truthy_int_Some (x : option Z) :
  truthy_int x = true -> exists n, x = Some n.
Proof. destruct x; [eauto | discriminate]. Qed.

Lemma truthy_kernel_Some (x : option kernel) :
  truthy_kernel x = true -> exists k, x = Some k.
Proof. destruct x; [eauto | discriminate]. Qed.

(** Lines 284-288 of [__init__], once the projection is built. *)
Lemma init_tail (a : Args) (obj0 : LLeaky) (r : Recurrent) :
  self_recurrent obj0 = Some r ->
  exists obj,
    ((if negb (arg_learn_recurrent a) then _disable_recurrent_grad else ret tt) ;;;
     self <- get ;;
     if self_init_hidden self then
       let '(spk, mem, b) := init_lleaky self in
       assign (fun s => set_b b (set_mem mem (set_spk spk s)))
     else ret tt) obj0 = (Return tt, obj)
    /\ self_base obj = self_base obj0
    /\ self_recurrent obj = Some r
    /\ self_V obj = self_V obj0
    /\ self_padding obj = self_padding obj0
    /\ self_recurrent_requires_grad obj
       = (if arg_learn_recurrent a then self_recurrent_requires_grad obj0 else false)
    /\ self_reset obj = self_reset obj0
    /\ (if self_init_hidden obj0
        then exists before,
               self_spk obj = Some (fst (fst (init_lleaky before)))
               /\ self_mem obj = Some (snd (fst (init_lleaky before)))
               /\ self_b obj = Some (snd (init_lleaky before))
        else self_spk obj = self_spk obj0 /\ self_mem obj = self_mem obj0
             /\ self_b obj = self_b obj0).
Proof.
  intros Hr.
  destruct (arg_learn_recurrent a); cbn [negb].
  - rewrite (bind_step _ _ obj0 obj0 tt) by reflexivity.
    rewrite (bind_step _ _ obj0 obj0 obj0) by reflexivity.
    destruct (self_init_hidden obj0) eqn:Hh.
    + destruct (init_lleaky obj0) as [[spk mem] b] eqn:Hl.
      eexists. split; [reflexivity |]. cbn.
      repeat split; try assumption.
      exists obj0. rewrite Hl. repeat split.
    + exists obj0. repeat split. exact Hr.
  - assert (Hd : _disable_recurrent_grad obj0
                 = (Return tt, set_recurrent_requires_grad false obj0)).
    { unfold _disable_recurrent_grad, bind, reading, assign. now rewrite Hr. }
    rewrite (bind_step _ _ obj0 _ tt Hd).
    rewrite (bind_step _ _ _ _ (set_recurrent_requires_grad false obj0)) by reflexivity.
    change (self_init_hidden (set_recurrent_requires_grad false obj0))
      with (self_init_hidden obj0).
    destruct (self_init_hidden obj0) eqn:Hh.
    + destruct (init_lleaky (set_recurrent_requires_grad false obj0))
        as [[spk mem] b] eqn:Hl.
      eexists. split; [reflexivity |]. cbn.
      repeat split; try assumption.
      exists (set_recurrent_requires_grad false obj0). rewrite Hl. repeat split.
    + eexists. split; [reflexivity |]. cbn. repeat split. exact Hr.
Qed.

(** A step of the constructor that raises ends it. *)
Lemma bind_raise {A B : Type} (c : M A) (k : A -> M B) (s s' : LLeaky) (e : exn) :
  c s = (Raise e, s') -> bind c k s = (Raise e, s').
Proof. intros H. unfold bind. now rewrite H. Qed.

(** Lines 274-288 of [__init__] on an accepted configuration: the
    constructor completes, unless torch refuses a size that is not
    positive. *)
Lemma init_body_fresh (a : Args) (base : ALIF_attrs) :
  _lleaky_init_cases (fresh_object base a) = Return tt ->
  (exists obj,
    init_body a (fresh_object base a) = (Return tt, obj)
    /\ self_base obj = base
    /\ self_recurrent_requires_grad obj = arg_learn_recurrent a
    /\ self_reset obj = None
    /\ (if base_init_hidden base
        then exists before,
               self_spk obj = Some (fst (fst (init_lleaky before)))
               /\ self_mem obj = Some (snd (fst (init_lleaky before)))
               /\ self_b obj = Some (snd (init_lleaky before))
        else self_spk obj = None /\ self_mem obj = None /\ self_b obj = None)
    /\ match self_recurrent obj with
       | Some (Linear i o) =>
           arg_all_to_all a = true /\ arg_linear_features a = Some i /\ o = i
       | Some (Conv2d i o k p) =>
           arg_all_to_all a = true
           /\ truthy_int (arg_linear_features a) = false
           /\ arg_conv2d_channels a = Some i /\ o = i
           /\ arg_kernel_size a = Some k
           /\ p = (kernel_axis k false / 2, kernel_axis k true / 2)%Z
           /\ self_padding obj = Some p
       | Some (RecurrentOneToOne V) =>
           arg_all_to_all a = false
           /\ V = _V_register_buffer (arg_V a) (arg_learn_recurrent a)
           /\ self_V obj = Some V
       | None => False
       end)
  \/ (positive_sizes a = false
      /\ exists obj,
           init_body a (fresh_object base a)
           = (Raise (RuntimeError negative_dimension_msg), obj)
           /\ self_recurrent obj = None).
Proof.
  intros Hok. pose proof Hok as Htab. apply (init_cases_table _) in Htab.
  unfold init_body.
  rewrite (bind_step _ _ _ (fresh_object base a) tt)
    by (unfold reading; now rewrite Hok).
  rewrite (bind_step _ _ _ (fresh_object base a) (fresh_object base a)) by reflexivity.
  simpl in Htab.
  change (self_all_to_all (fresh_object base a)) with (arg_all_to_all a).
  destruct Htab as [(HA & HL & _ & _) | [(HA & HL & HC & HK) | (HA & _ & _ & _)]];
    rewrite HA.
  - destruct (truthy_int_Some _ HL) as [n Hn].
    destruct (n <? 0)%Z eqn:Hneg.
    + right. split.
      * unfold positive_sizes. rewrite Hn.
        apply Z.ltb_lt in Hneg.
        destruct (Z.ltb_spec 0 n) as [Hpos | _]; [lia | reflexivity].
      * exists (fresh_object base a). split; [| reflexivity].
        apply bind_raise.
        unfold _init_recurrent_net, _init_recurrent_linear, nn_Linear. cbn.
        now rewrite HA, HL, Hn, Hneg.
    + left.
      assert (Hc : _init_recurrent_net (fresh_object base a)
                   = (Return tt, set_recurrent (Linear n n) (fresh_object base a))).
      { unfold _init_recurrent_net, _init_recurrent_linear, nn_Linear. cbn.
        now rewrite HA, HL, Hn, Hneg. }
      rewrite (bind_step _ _ _ _ tt Hc).
      destruct (init_tail a (set_recurrent (Linear n n) (fresh_object base a))
                  (Linear n n) eq_refl)
        as (obj & Hrun & Hb & Hrec & HV & Hp & Hg & Hreset & Hst).
      exists obj. split; [exact Hrun |]. rewrite Hrec.
      cbn in Hb, Hg, Hreset, Hst.
      split; [exact Hb |]. split; [now rewrite Hg; destruct (arg_learn_recurrent a) |].
      split; [exact Hreset |]. split; [exact Hst |]. repeat split; assumption.
  - destruct (truthy_int_Some _ HC) as [c Hc].
    destruct (truthy_kernel_Some _ HK) as [k Hk].
    set (p := (kernel_axis k false / 2, kernel_axis k true / 2)%Z).
    assert (Hpad : _init_padding (fresh_object base a)
                   = (Return tt, set_padding p (fresh_object base a))).
    { unfold _init_padding. cbn. rewrite Hk. subst p. now destruct k. }
    destruct ((c <? 0)%Z || (c <? 0)%Z
              || (kernel_axis k false <? 0)%Z || (kernel_axis k true <? 0)%Z)
      eqn:Hneg.
    + right. split.
      * unfold positive_sizes. rewrite Hc, Hk.
        destruct (arg_linear_features a) as [n |];
          [destruct (0 <? n)%Z; [| reflexivity] |]; cbn [andb].
        all: destruct (Z.ltb_spec 0 c) as [Hpc | _]; [| reflexivity].
        all: destruct (Z.ltb_spec 0 (kernel_axis k false)) as [Hp0 | _];
          [| reflexivity].
        all: destruct (Z.ltb_spec 0 (kernel_axis k true)) as [Hp1 | _];
          [| reflexivity].
        all: exfalso.
        all: destruct (Z.ltb_spec c 0) as [Hc0 | _]; [lia |].
        all: destruct (Z.ltb_spec (kernel_axis k false) 0) as [Hk0 | _]; [lia |].
        all: destruct (Z.ltb_spec (kernel_axis k true) 0) as [Hk1 | _]; [lia |].
        all: discriminate Hneg.
      * exists (set_padding p (fresh_object base a)). split; [| reflexivity].
        apply bind_raise.
        unfold _init_recurrent_net, _init_recurrent_conv2d. cbn.
        rewrite HA, HL, Hk. cbn.
        rewrite (bind_step _ _ _ _ tt Hpad). cbn.
        unfold nn_Conv2d. now rewrite Hc, Hk, Hneg.
    + left.
      assert (Hnet : _init_recurrent_net (fresh_object base a)
                     = (Return tt, set_recurrent (Conv2d c c k p)
                                     (set_padding p (fresh_object base a)))).
      { unfold _init_recurrent_net, _init_recurrent_conv2d. cbn.
        rewrite HA, HL, Hk. cbn.
        rewrite (bind_step _ _ _ _ tt Hpad). cbn.
        unfold nn_Conv2d. now rewrite Hc, Hk, Hneg. }
      rewrite (bind_step _ _ _ _ tt Hnet).
      destruct (init_tail a (set_recurrent (Conv2d c c k p)
                               (set_padding p (fresh_object base a)))
                  (Conv2d c c k p) eq_refl)
        as (obj & Hrun & Hb & Hrec & HV & Hpd & Hg & Hreset & Hst).
      exists obj. split; [exact Hrun |]. rewrite Hrec.
      cbn in Hb, Hg, Hreset, Hst, Hpd.
      split; [exact Hb |]. split; [now rewrite Hg; destruct (arg_learn_recurrent a) |].
      split; [exact Hreset |]. split; [exact Hst |]. repeat split; assumption.
  - left.
    set (V := _V_register_buffer (arg_V a) (arg_learn_recurrent a)).
    assert (Hone : (assign (set_V V) ;;; _init_recurrent_one_to_one)
                     (fresh_object base a)
                   = (Return tt, set_recurrent (RecurrentOneToOne V)
                                   (set_V V (fresh_object base a)))).
    { reflexivity. }
    rewrite (bind_step _ _ _ _ tt Hone).
    destruct (init_tail a (set_recurrent (RecurrentOneToOne V)
                             (set_V V (fresh_object base a)))
                (RecurrentOneToOne V) eq_refl)
      as (obj & Hrun & Hb & Hrec & HV & Hpad & Hg & Hreset & Hst).
    exists obj. split; [exact Hrun |]. rewrite Hrec.
    cbn in Hb, Hg, Hreset, Hst, HV.
    split; [exact Hb |]. split; [now rewrite Hg; destruct (arg_learn_recurrent a) |].
    split; [exact Hreset |]. split; [exact Hst |]. repeat split; assumption.
Qed.

(** C5: the validator raises exactly on the rejected rows of the validity
    table and returns exactly on the accepted ones; when it raises,
    [__init__] raises the same error with no recurrent projection built,
    and when it returns and every size given is positive, [__init__]
    completes with the projection built. *)
Theorem init_cases_before_projection (a : Args) (base : ALIF_attrs) :
  ALIF_init (arg_beta a) (arg_threshold a) (arg_init_hidden a)
    (arg_inhibition a) (arg_learn_beta a) (arg_reset_mechanism a)
    (arg_state_quant a) (arg_output a) = Return base ->
  Qc_eq_bool (arg_tau_adaptation a) 0 = false ->
  let self := fresh_object base a in
  let given_linear := truthy_int (arg_linear_features a) in
  let given_channels := truthy_int (arg_conv2d_channels a) in
  let given_kernel := truthy_kernel (arg_kernel_size a) in
  (table_rejects (arg_all_to_all a) given_linear given_channels given_kernel
   <-> exists e, _lleaky_init_cases self = Raise e)
  /\ (table_accepts (arg_all_to_all a) given_linear given_channels given_kernel
      <-> _lleaky_init_cases self = Return tt)
  /\ (forall e, _lleaky_init_cases self = Raise e ->
      __init__ a = (Raise e, Some self) /\ self_recurrent self = None)
  /\ (_lleaky_init_cases self = Return tt ->
      positive_sizes a = true ->
      exists obj r,
        __init__ a = (Return tt, Some obj) /\ self_recurrent obj = Some r).
Proof.
  intros Hbase Htau self given_linear given_channels given_kernel.
  destruct (init_cases_table self) as [Hrej Hacc].
  split; [symmetry; exact Hrej |]. split; [symmetry; exact Hacc |]. split.
  - intros e He. split; [| reflexivity].
    unfold __init__. rewrite Hbase, Htau.
    fold self. now rewrite (init_body_rejected a self e He).
  - intros Hok Hpos.
    destruct (init_body_fresh a base Hok)
      as [(obj & Hi & _ & _ & _ & _ & Hr) | (Hneg & _)]; [| congruence].
    destruct (self_recurrent obj) as [r |] eqn:Hrec; [| contradiction].
    exists obj, r. split; [| exact Hrec].
    unfold __init__. rewrite Hbase, Htau. now rewrite Hi.
Qed.

End Validator.

Lemma init_cases_before_projection_witness :
  let self := fresh_object (E := reference_env) missing_base missing_args in
  (table_rejects true false false false
   <-> exists e, _lleaky_init_cases self = Raise e)
  /\ (table_accepts true false false false
      <-> _lleaky_init_cases self = Return tt)
  /\ (forall e, _lleaky_init_cases self = Raise e ->
      __init__ (E := reference_env) missing_args = (Raise e, Some self)
      /\ self_recurrent self = None)
  /\ (_lleaky_init_cases self = Return tt ->
      positive_sizes missing_args = true ->
      exists obj r,
        __init__ (E := reference_env) missing_args = (Return tt, Some obj)
        /\ self_recurrent obj = Some r).
Proof.
  apply (init_cases_before_projection (E := reference_env) missing_args missing_base).
  - reflexivity.
  - reflexivity.
Defined.

(** An accepted configuration with a negative size: the validator returns
    and torch refuses the projection. *)
Lemma negative_size_refused :
  _lleaky_init_cases (fresh_object (E := reference_env) missing_base negative_linear_args)
  = Return tt
  /\ fst (__init__ (E := reference_env) negative_linear_args)
     = Raise (RuntimeError negative_dimension_msg).
Proof. split; reflexivity. Qed.

(** ** The step *)

Section Step.

Context {E : Env}.

Lemma quiet_recurrent_call (r : Recurrent) (x : pyval) : quiet (recurrent_call r x).
Proof.
  destruct r as [i o | i o k p | V]; simpl.
  - destruct (nn_Linear_forward i o x); intros msg; discriminate.
  - destruct (nn_Conv2d_forward i o k p x); intros msg; discriminate.
  - apply quiet_tmul.
Qed.

Ltac quiet_steps :=
  repeat first
    [ apply quiet_Return
    | apply quiet_tadd | apply quiet_tmul | apply quiet_tsub
    | apply quiet_getattr | apply quiet_recurrent_call
    | apply quiet_obind; [| intros ?] ].

Lemma quiet_base_state_function (self : LLeaky) (input_ : tensor) (spk mem : pyval) :
  quiet (_base_state_function self input_ spk mem).
Proof. unfold _base_state_function. quiet_steps. Qed.

Lemma quiet_base_state_function_hidden (self : LLeaky) (input_ : tensor) :
  quiet (_base_state_function_hidden self input_).
Proof. unfold _base_state_function_hidden. quiet_steps. Qed.

Lemma quiet_b_state_function (self : LLeaky) (spk b : pyval) :
  quiet (_b_state_function self spk b).
Proof. unfold _b_state_function. quiet_steps. Qed.

Lemma quiet_get_new_thresh (self : LLeaky) (b : pyval) :
  quiet (_get_new_thresh self b).
Proof. unfold _get_new_thresh. quiet_steps. Qed.

Lemma quiet_build_state_function (self : LLeaky) (input_ : tensor)
  (spk mem thresh : pyval) :
  quiet (_build_state_function self input_ spk mem thresh).
Proof.
  unfold _build_state_function.
  destruct (Z.eqb (self_reset_mechanism_val self) 0);
    [| destruct (Z.eqb (self_reset_mechanism_val self) 1);
       [| destruct (Z.eqb (self_reset_mechanism_val self) 2)]];
    try (intros msg; discriminate);
    repeat first [ apply quiet_base_state_function | progress quiet_steps ].
Qed.

Lemma quiet_build_state_function_hidden (self : LLeaky) (input_ : tensor) :
  quiet (_build_state_function_hidden self input_).
Proof.
  unfold _build_state_function_hidden.
  destruct (Z.eqb (self_reset_mechanism_val self) 0);
    [| destruct (Z.eqb (self_reset_mechanism_val self) 1);
       [| destruct (Z.eqb (self_reset_mechanism_val self) 2)]];
    try (intros msg; discriminate);
    repeat first [ apply quiet_base_state_function_hidden | progress quiet_steps ].
Qed.

Lemma quietM_quantize_owned : quietM quantize_owned.
Proof.
  unfold quantize_owned. apply quietM_bind; [apply quietM_get |]. intros self.
  destruct (self_state_quant self); [| apply quietM_ret].
  apply quietM_bind; [apply quietM_reading; intros; apply quiet_getattr |].
  intros own_mem. apply quietM_assign.
Qed.

Ltac quietM_steps :=
  repeat first
    [ apply quietM_ret | apply quietM_get | apply quietM_assign
    | apply quietM_quantize_owned
    | apply quietM_reading; intros ?
    | apply quietM_bind; [| intros ?]
    | progress cbv zeta ].

(** The explicit step has no calling-convention check. *)
Lemma quietM_forward_explicit (input_ : tensor) (spk mem b : pyval) :
  quietM (forward_explicit input_ spk mem b).
Proof.
  unfold forward_explicit. quietM_steps;
    first [ apply quiet_b_state_function | apply quiet_get_new_thresh
          | apply quiet_build_state_function | apply quiet_Return ].
Qed.

Lemma quietM_forward_init (input_ : tensor) (spk mem b : pyval) :
  quietM (forward_init input_ spk mem b).
Proof.
  unfold forward_init.
  destruct (hasattr_init_flag spk || hasattr_init_flag mem); [apply quietM_ret |].
  destruct (is_False mem); [| apply quietM_ret].
  apply quietM_bind; [apply quietM_reading; intros; apply quiet_getattr |].
  intros own_mem. destruct (hasattr_init_flag own_mem); [| apply quietM_ret].
  quietM_steps; apply quiet_getattr.
Qed.

(** Once the check has passed, the owned-state step raises no [TypeError]. *)
Lemma quietM_forward_hidden_defaults (input_ : tensor) :
  quietM (forward_hidden input_ PyFalse PyFalse).
Proof.
  unfold forward_hidden.
  apply quietM_bind; [apply quietM_lift; apply quiet_Return |]. intros _.
  quietM_steps;
    first [ apply quiet_getattr | apply quiet_build_state_function_hidden
          | apply quietM_quantize_owned | apply quiet_Return | idtac ].
  all: match goal with
       | |- context [if ?c then _ else _] => destruct c; apply quiet_Return
       end.
Qed.

Lemma quantize_owned_same_b : preserves same_b quantize_owned.
Proof.
  unfold quantize_owned.
  apply (preserves_bind same_b same_b_trans);
    [apply (preserves_get same_b same_b_refl) |].
  intros self. destruct (self_state_quant self);
    [| apply (preserves_ret same_b same_b_refl)].
  apply (preserves_bind same_b same_b_trans);
    [apply (preserves_reading same_b same_b_refl) |].
  intros own_mem. apply (preserves_assign same_b). intros s. reflexivity.
Qed.

Ltac same_b_steps :=
  repeat first
    [ apply quantize_owned_same_b
    | apply (preserves_ret same_b same_b_refl)
    | apply (preserves_lift same_b same_b_refl)
    | apply (preserves_reading same_b same_b_refl)
    | apply (preserves_assign same_b); intros ?; reflexivity
    | apply (preserves_bind same_b same_b_trans); [| intros ?]
    | progress cbv zeta ].

(** The owned-state step writes [reset], [mem] and [spk], never [b]. *)
Lemma forward_hidden_same_b (input_ : tensor) (spk mem : pyval) :
  preserves same_b (forward_hidden input_ spk mem).
Proof.
  unfold forward_hidden. same_b_steps.
  all: match goal with
       | |- context [if ?c then _ else _] => destruct c
       end; apply (preserves_ret same_b same_b_refl).
Qed.

Lemma forward_init_owned (input_ : tensor) (spk mem b own_spk own_mem own_b : pyval)
  (self : LLeaky) :
  self_spk self = Some own_spk ->
  self_mem self = Some own_mem ->
  self_b self = Some own_b ->
  forward_init input_ spk mem b self =
    if hasattr_init_flag spk || hasattr_init_flag mem
    then (Return (zeros_like input_, zeros_like input_, zeros_like input_), self)
    else if is_False mem && hasattr_init_flag own_mem
         then (Return (spk, mem, b), converted input_ self)
         else (Return (spk, mem, b), self).
Proof.
  intros Hspk Hmem Hb. unfold forward_init.
  destruct (hasattr_init_flag spk || hasattr_init_flag mem); [reflexivity |].
  destruct (is_False mem); [| reflexivity].
  unfold bind, reading. rewrite Hmem. simpl.
  destruct (hasattr_init_flag own_mem); [| reflexivity].
  rewrite Hspk, Hmem, Hb. reflexivity.
Qed.

(** A call that leaves the state arguments at their defaults, on a layer
    that owns its state. *)
Lemma forward_defaults_owned (input_ : tensor) (b : pyval) (self : LLeaky) :
  self_init_hidden self = true ->
  forward input_ PyFalse PyFalse b self =
    match self_mem self with
    | None => (Raise (AttributeError "mem"), self)
    | Some own_mem =>
        if hasattr_init_flag own_mem then
          match self_spk self, self_b self with
          | None, _ => (Raise (AttributeError "spk"), self)
          | Some _, None => (Raise (AttributeError "b"), self)
          | Some _, Some _ =>
              forward_hidden input_ PyFalse PyFalse (converted input_ self)
          end
        else forward_hidden input_ PyFalse PyFalse self
    end.
Proof.
  intros Hh. unfold forward, forward_init. simpl.
  unfold bind at 1 2. unfold reading at 1.
  destruct (self_mem self) as [own_mem |] eqn:Hmem; simpl; [| reflexivity].
  destruct (hasattr_init_flag own_mem).
  - unfold bind, reading. rewrite Hmem.
    destruct (self_spk self) as [own_spk |]; simpl; [| reflexivity].
    destruct (self_b self) as [own_b |]; simpl; [| reflexivity].
    unfold self_init_hidden in *. simpl. rewrite Hh. reflexivity.
  - unfold bind. simpl. rewrite Hh. reflexivity.
Qed.

(** The first-pass conversion is the only write before the step proper. *)
Lemma forward_init_trace_kept (input_ : tensor) (spk mem b : pyval) (self : LLeaky) :
  trace_kept input_ self (snd (forward_init input_ spk mem b self)).
Proof.
  assert (Hsame : trace_kept input_ self self)
    by (split; [reflexivity | left; reflexivity]).
  unfold forward_init.
  destruct (hasattr_init_flag spk || hasattr_init_flag mem); [exact Hsame |].
  destruct (is_False mem); [| exact Hsame].
  unfold bind, reading.
  destruct (self_mem self) as [own_mem |] eqn:Hmem; simpl; [| exact Hsame].
  destruct (hasattr_init_flag own_mem); [| exact Hsame].
  destruct (self_spk self); simpl; [| exact Hsame].
  rewrite Hmem. simpl.
  destruct (self_b self); simpl; [| exact Hsame].
  split; [reflexivity | right; reflexivity].
Qed.

(** C6: the owned-state step never applies the trace update: after it the
    owned trace is the one the layer had, or the zeros of the first-pass
    conversion. *)
Theorem hidden_step_leaves_trace
  (self : LLeaky) (input_ : tensor) (spk mem b : pyval) :
  self_init_hidden self = true ->
  self_b (snd (forward input_ spk mem b self)) = self_b self
  \/ self_b (snd (forward input_ spk mem b self)) = Some (zeros_like input_).
Proof.
  intros Hh. unfold forward, bind.
  pose proof (forward_init_trace_kept input_ spk mem b self) as Hinit.
  destruct (forward_init input_ spk mem b self) as [[[[spk' mem'] b'] | e] s1];
    simpl in *; [| exact (proj2 Hinit)].
  destruct Hinit as [Hbase Hb].
  unfold self_init_hidden in *. rewrite Hbase, Hh. simpl.
  pose proof (forward_hidden_same_b input_ spk' mem' s1) as Hsame.
  unfold same_b in Hsame. rewrite Hsame. exact Hb.
Qed.

(** C7: on a layer that owns its state, a call that supplies a spike or a
    potential raises the calling-convention [TypeError].  When it is raised
    the layer is as it was, except in one case: a call whose potential
    argument is the default and whose spike argument is not an
    uninitialised sentinel, on a layer whose stored potential is still
    uninitialised, has already converted the owned state to zeros.  A layer
    with explicit state never raises this error, whatever it is called
    with; called with the spike and the potential at their defaults while
    it has no [mem] attribute, it raises an [AttributeError] and is left as
    it was. *)
Theorem forward_cases_after_conversion
  (self other : LLeaky) (input_ : tensor)
  (spk mem b own_spk own_mem own_b spk' mem' b' : pyval) :
  self_init_hidden self = true ->
  self_spk self = Some own_spk ->
  self_mem self = Some own_mem ->
  self_b self = Some own_b ->
  is_False spk = false \/ is_False mem = false ->
  self_init_hidden other = false ->
  forward input_ spk mem b self =
    (Raise (TypeError forward_cases_msg),
     if negb (hasattr_init_flag spk || hasattr_init_flag mem)
        && is_False mem && hasattr_init_flag own_mem
     then converted input_ self else self)
  /\ (hasattr_init_flag own_mem = false \/ hasattr_init_flag spk = true
      \/ is_False mem = false ->
      snd (forward input_ spk mem b self) = self)
  /\ fst (forward input_ spk' mem' b' other) <> Raise (TypeError forward_cases_msg)
  /\ (self_mem other = None ->
      forward input_ PyFalse PyFalse b' other = (Raise (AttributeError "mem"), other)).
Proof.
  intros Hh Hspk Hmem Hb Hsupplied Hother.
  assert (Hrun : forward input_ spk mem b self =
    (Raise (TypeError forward_cases_msg),
     if negb (hasattr_init_flag spk || hasattr_init_flag mem)
        && is_False mem && hasattr_init_flag own_mem
     then converted input_ self else self)).
  { unfold forward, bind.
    rewrite (forward_init_owned input_ spk mem b own_spk own_mem own_b self Hspk Hmem Hb).
    destruct (hasattr_init_flag spk || hasattr_init_flag mem); simpl.
    - rewrite Hh. reflexivity.
    - destruct (is_False mem) eqn:Em; simpl.
      + destruct Hsupplied as [Hs | Hm]; [| discriminate Hm].
        destruct (hasattr_init_flag own_mem); simpl.
        * unfold self_init_hidden in *. simpl. rewrite Hh. simpl.
          unfold forward_hidden, bind, lift, _lleaky_forward_cases.
          rewrite Em, Hs. reflexivity.
        * rewrite Hh. simpl.
          unfold forward_hidden, bind, lift, _lleaky_forward_cases.
          rewrite Em, Hs. reflexivity.
      + rewrite Hh. simpl.
        unfold forward_hidden, bind, lift, _lleaky_forward_cases.
        rewrite Em. reflexivity. }
  split; [exact Hrun |]. split; [| split].
  - intros [Hflag | [Hflag | Hflag]]; rewrite Hrun, Hflag; simpl.
    + now rewrite andb_false_r.
    + reflexivity.
    + now rewrite andb_false_r.
  - unfold forward, bind.
    pose proof (quietM_forward_init input_ spk' mem' b' other) as Hqi.
    pose proof (proj1 (forward_init_trace_kept input_ spk' mem' b' other)) as Hbase.
    destruct (forward_init input_ spk' mem' b' other) as [[[[s0 m0] b0] | e] s1];
      simpl in *.
    + unfold self_init_hidden in *. rewrite Hbase, Hother. simpl.
      apply (quietM_forward_explicit input_ s0 m0 b0 s1).
    + intros H. apply (Hqi forward_cases_msg). congruence.
  - intros Hnomem. unfold forward, forward_init, bind, reading. simpl.
    rewrite Hnomem. reflexivity.
Qed.

(** C10: on a layer that owns its state the check passes whenever the
    spike and the potential are left at their defaults, the call raises no
    [TypeError] (the calling-convention error is one), and a supplied
    trace changes neither the outcome nor the state the call leaves. *)
Theorem trace_argument_ignored (self : LLeaky) (input_ : tensor) (b : pyval) :
  self_init_hidden self = true ->
  _lleaky_forward_cases PyFalse PyFalse = Return tt
  /\ forward input_ PyFalse PyFalse b self
     = forward input_ PyFalse PyFalse PyFalse self
  /\ forall msg, fst (forward input_ PyFalse PyFalse b self) <> Raise (TypeError msg).
Proof.
  intros Hh. split; [reflexivity |]. split.
  - now rewrite !forward_defaults_owned.
  - rewrite forward_defaults_owned by exact Hh.
    destruct (self_mem self) as [own_mem |]; [| intros msg; discriminate].
    destruct (hasattr_init_flag own_mem);
      [| apply quietM_forward_hidden_defaults].
    destruct (self_spk self); [| intros msg; discriminate].
    destruct (self_b self); [| intros msg; discriminate].
    apply quietM_forward_hidden_defaults.
Qed.

End Step.

Lemma hidden_step_leaves_trace_witness :
  self_b (snd (forward (E := reference_env) [0%Qc] PyFalse PyFalse PyFalse
                 (stepped_layer "subtract")))
  = self_b (stepped_layer "subtract")
  \/ self_b (snd (forward (E := reference_env) [0%Qc] PyFalse PyFalse PyFalse
                    (stepped_layer "subtract")))
     = Some (zeros_like [0%Qc]).
Proof.
  apply (hidden_step_leaves_trace (E := reference_env)
           (stepped_layer "subtract") [0%Qc] PyFalse PyFalse PyFalse).
  reflexivity.
Defined.

(** In that step the previous spike is 1 and the trace 0: the update of the
    explicit convention would move the trace off 0, and the stored trace
    stays 0. *)
Lemma hidden_step_trace_stale :
  self_spk (stepped_layer "subtract") = Some (T [1%Qc])
  /\ self_b (stepped_layer "subtract") = Some (T [0%Qc])
  /\ self_b (snd (forward (E := reference_env) [0%Qc] PyFalse PyFalse PyFalse
                    (stepped_layer "subtract"))) = Some (T [0%Qc])
  /\ exists b', _b_state_function (stepped_layer "subtract") (T [1%Qc]) (T [0%Qc])
                = Return b' /\ elem b' 0 <> 0%Qc.
Proof.
  split; [reflexivity |]. split; [reflexivity |]. split; [reflexivity |].
  exists (T [Q2Qc (3 # 8)]). split; [qc_eq |].
  intros H. discriminate H.
Qed.

Lemma forward_cases_after_conversion_witness :
  forward (E := reference_env) [1%Qc] (T [1%Qc]) PyFalse PyFalse (stepped_layer "zero")
  = (Raise (TypeError forward_cases_msg),
     if negb (hasattr_init_flag (T [1%Qc]) || hasattr_init_flag PyFalse)
        && is_False PyFalse && hasattr_init_flag (T [1%Qc])
     then converted [1%Qc] (stepped_layer "zero") else stepped_layer "zero")
  /\ (hasattr_init_flag (T [1%Qc]) = false \/ hasattr_init_flag (T [1%Qc]) = true
      \/ is_False PyFalse = false ->
      snd (forward (E := reference_env) [1%Qc] (T [1%Qc]) PyFalse PyFalse
             (stepped_layer "zero")) = stepped_layer "zero")
  /\ fst (forward (E := reference_env) [1%Qc] (T [0%Qc]) (T [0%Qc]) (T [0%Qc])
            (unit_layer false "zero")) <> Raise (TypeError forward_cases_msg)
  /\ (self_mem (unit_layer false "zero") = None ->
      forward (E := reference_env) [1%Qc] PyFalse PyFalse (T [0%Qc])
        (unit_layer false "zero")
      = (Raise (AttributeError "mem"), unit_layer false "zero")).
Proof.
  apply (forward_cases_after_conversion (E := reference_env)
           (stepped_layer "zero") (unit_layer false "zero") [1%Qc]
           (T [1%Qc]) PyFalse PyFalse (T [1%Qc]) (T [1%Qc]) (T [0%Qc])
           (T [0%Qc]) (T [0%Qc]) (T [0%Qc])).
  - reflexivity.
  - reflexivity.
  - qc_eq.
  - reflexivity.
  - left. reflexivity.
  - reflexivity.
Defined.

(** A sentinel handed in as the spike suppresses the conversion: the error
    is raised and the uninitialised owned state is left as it was. *)
Lemma forward_cases_sentinel_spike :
  forward (E := reference_env) [1%Qc] sentinel PyFalse PyFalse (unit_layer true "zero")
  = (Raise (TypeError forward_cases_msg), unit_layer true "zero").
Proof. reflexivity. Qed.

(** A freshly built layer that owns its state, called with a spike but no
    potential: the error is raised after the owned state was converted from
    the uninitialised sentinel to zeros. *)
Lemma forward_cases_counterexample :
  fst (forward (E := reference_env) [1%Qc] (T [1%Qc]) PyFalse PyFalse
         (unit_layer true "zero")) = Raise (TypeError forward_cases_msg)
  /\ self_mem (unit_layer true "zero") = Some sentinel
  /\ self_mem (snd (forward (E := reference_env) [1%Qc] (T [1%Qc]) PyFalse PyFalse
                      (unit_layer true "zero"))) = Some (T [0%Qc])
  /\ snd (forward (E := reference_env) [1%Qc] (T [1%Qc]) PyFalse PyFalse
            (unit_layer true "zero")) <> unit_layer true "zero".
Proof.
  split; [reflexivity |]. split; [reflexivity |]. split; [reflexivity |].
  intros H. apply (f_equal self_mem) in H. vm_compute in H. discriminate H.
Qed.

Lemma trace_argument_ignored_witness :
  _lleaky_forward_cases PyFalse PyFalse = Return tt
  /\ forward (E := reference_env) [1%Qc] PyFalse PyFalse (T [half])
       (stepped_layer "zero")
     = forward (E := reference_env) [1%Qc] PyFalse PyFalse PyFalse
         (stepped_layer "zero")
  /\ forall msg,
      fst (forward (E := reference_env) [1%Qc] PyFalse PyFalse (T [half])
             (stepped_layer "zero")) <> Raise (TypeError msg).
Proof.
  apply (trace_argument_ignored (E := reference_env) (stepped_layer "zero")
           [1%Qc] (T [half])).
  reflexivity.
Defined.

(** That call returns the spike of the step. *)
Lemma trace_argument_ignored_returns :
  exists spk,
    fst (forward (E := reference_env) [1%Qc] PyFalse PyFalse (T [half])
           (stepped_layer "zero")) = Return (Spk spk).
Proof. eexists. vm_compute. reflexivity. Qed.

(** A call of the same form that does raise: the layer owns a state of two
    units and is handed an input of three, the spike and the potential at
    their defaults and a trace supplied.  The check passes and the step
    raises torch's size-mismatch [RuntimeError]. *)
Lemma trace_argument_counterexample :
  self_init_hidden (wide_layer "subtract") = true
  /\ _lleaky_forward_cases PyFalse PyFalse = Return tt
  /\ fst (forward (E := reference_env) [1%Qc; 1%Qc; 1%Qc] PyFalse PyFalse (T [half])
            (wide_layer "subtract"))
     = Raise (RuntimeError shape_msg).
Proof. split; [reflexivity |]. split; reflexivity. Qed.

(** ** The convolutional projection *)

Lemma half_kernel (k : Z) : (2 * (k / 2) = k - k mod 2)%Z.
Proof. pose proof (Z.div_mod k 2). lia. Qed.

(** C8: the padding is [kernel // 2] along each axis; with it the output
    size along an axis is [n + 1 - kernel mod 2], the input size for an odd
    kernel and one more for an even kernel. *)
Theorem conv2d_padding_output_size (self : LLeaky) (k : kernel) (n : Z) (axis : bool) :
  self_kernel_size self = Some k ->
  _init_padding self
  = (Return tt,
     set_padding (kernel_axis k false / 2, kernel_axis k true / 2)%Z self)
  /\ conv2d_out_size n (kernel_axis k axis) (kernel_axis k axis / 2)
     = (n + 1 - kernel_axis k axis mod 2)%Z.
Proof.
  intros Hk. split.
  - unfold _init_padding. rewrite Hk. destruct k; reflexivity.
  - unfold conv2d_out_size. rewrite Z.div_1_r.
    pose proof (half_kernel (kernel_axis k axis)). lia.
Qed.

Lemma conv2d_padding_output_size_witness :
  _init_padding conv_object = (Return tt, set_padding (1, 1)%Z conv_object)
  /\ conv2d_out_size 4 2 1 = 5%Z.
Proof.
  apply (conv2d_padding_output_size conv_object (KInt 2) 4 false).
  reflexivity.
Defined.

(** The constructor builds that projection: kernel 2, padding 1. *)
Lemma conv2d_even_kernel_built :
  exists obj,
    __init__ (E := reference_env) conv_args = (Return tt, Some obj)
    /\ self_recurrent obj = Some (Conv2d 1 1 (KInt 2) (1, 1)%Z).
Proof. eexists. split; reflexivity. Qed.


(** ** The trace over several steps *)

(** Order facts on [Qc] are decided on the underlying [Q]. *)
Ltac qc2q :=
  unfold Qcle, Qclt, Qcminus, Qcplus, Qcmult, Qcopp, Q2Qc in *; cbn [this] in *;
  repeat (setoid_rewrite Qred_correct);
  repeat match goal with
         | H : _ |- _ => setoid_rewrite Qred_correct in H
         end.

Lemma convex_in_unit_interval (r x s : Qc) :
  (0 <= r -> r <= 1 -> 0 <= x -> x <= 1 -> 0 <= s -> s <= 1 ->
   0 <= r * x + (1 - r) * s /\ r * x + (1 - r) * s <= 1)%Qc.
Proof. intros. qc2q. split; nra. Qed.

Lemma coupled_between (th y k : Qc) :
  (0 <= y -> y <= 1 -> 0 <= k -> th <= th + y * k /\ th + y * k <= th + k)%Qc.
Proof. intros. qc2q. split; nra. Qed.


(** X1: under a constant spike tensor the trace after [n] steps is
    [rho_b^n * b + (1 - rho_b^n) * spike] per unit: it decays geometrically
    to 0 without spikes and rises geometrically to 1 under spikes. *)
Theorem trace_after_closed_form (self : LLeaky) (spk b : pyval) (n m : nat) :
  size0 spk = m -> size0 b = m ->
  exists b_n,
    trace_after self spk n b = Return b_n /\
    size0 b_n = m /\
    forall i, (i < m)%nat ->
      elem b_n i = (self_rho_b self ^ n * elem b i
                    + (1 - self_rho_b self ^ n) * elem spk i)%Qc.
Proof.
  intros Hspk. revert b. induction n as [| n IH]; intros b Hb.
  - exists b. split; [reflexivity |]. split; [exact Hb |].
    intros i _. simpl. ring.
  - destruct (b_state_function_returns self spk b m Hspk Hb) as (b' & Hb' & _ & Sb').
    destruct (IH b' Sb') as (b_n & Hn & Sn & En).
    exists b_n. split; [simpl; rewrite Hb'; exact Hn |]. split; [exact Sn |].
    intros i Hi. rewrite (En i Hi).
    rewrite (b_state_function_elem _ _ _ _ Hb' i) by (apply covers_lt; lia).
    simpl. ring.
Qed.

(** X2: with a decay in [[0, 1]], a trace in [[0, 1]] and spikes in [[0, 1]],
    the new trace is in [[0, 1]], and with a non-negative coupling the
    threshold derived from it lies between the base threshold and the base
    threshold plus the coupling. *)
Theorem trace_and_threshold_bounds (self : LLeaky) (spk b : pyval) (m : nat) :
  size0 spk = m -> size0 b = m ->
  length (self_threshold self) = m \/ length (self_threshold self) = 1%nat ->
  (0 <= self_rho_b self)%Qc -> (self_rho_b self <= 1)%Qc ->
  (0 <= self_thresh_beta self)%Qc ->
  (forall i, (i < m)%nat -> (0 <= elem spk i)%Qc /\ (elem spk i <= 1)%Qc) ->
  (forall i, (i < m)%nat -> (0 <= elem b i)%Qc /\ (elem b i <= 1)%Qc) ->
  exists b' thresh,
    _b_state_function self spk b = Return b' /\
    _get_new_thresh self b' = Return thresh /\
    forall i, (i < m)%nat ->
      (0 <= elem b' i)%Qc /\ (elem b' i <= 1)%Qc /\
      (at_ (self_threshold self) i <= elem thresh i)%Qc /\
      (elem thresh i <= at_ (self_threshold self) i + self_thresh_beta self)%Qc.
Proof.
  intros Hspk Hb Hth Hr0 Hr1 Hk Bspk Bb.
  destruct (b_state_function_returns self spk b m Hspk Hb) as (b' & Hb' & _ & Sb').
  destruct (get_new_thresh_returns self b' m Sb' Hth) as (thresh & Hthresh & _ & St).
  exists b', thresh. split; [exact Hb' |]. split; [exact Hthresh |].
  intros i Hi.
  rewrite (get_new_thresh_elem _ _ _ Hthresh i) by (apply covers_lt; lia).
  rewrite (b_state_function_elem _ _ _ _ Hb' i) by (apply covers_lt; lia).
  destruct (Bspk i Hi) as [Hs0 Hs1]. destruct (Bb i Hi) as [Hb0 Hb1].
  destruct (convex_in_unit_interval (self_rho_b self) (elem b i) (elem spk i)
              Hr0 Hr1 Hb0 Hb1 Hs0 Hs1) as [Hy0 Hy1].
  destruct (coupled_between (at_ (self_threshold self) i) _ (self_thresh_beta self)
              Hy0 Hy1 Hk) as [Ht0 Ht1].
  repeat split; assumption.
Qed.


(** Order between concrete rationals, after evaluation. *)
Ltac qc_le := apply Qle_bool_imp_le; vm_compute; reflexivity.

Lemma trace_after_closed_form_witness :
  exists b_n,
    trace_after (unit_layer false "subtract") (T [1%Qc]) 3 (T [0%Qc]) = Return b_n /\
    size0 b_n = 1%nat /\
    forall i, (i < 1)%nat ->
      elem b_n i = (self_rho_b (unit_layer false "subtract") ^ 3 * elem (T [0%Qc]) i
                    + (1 - self_rho_b (unit_layer false "subtract") ^ 3)
                      * elem (T [1%Qc]) i)%Qc.
Proof.
  apply (trace_after_closed_form
           (unit_layer false "subtract") (T [1%Qc]) (T [0%Qc]) 3 1).
  - reflexivity.
  - reflexivity.
Defined.

Lemma trace_and_threshold_bounds_witness :
  exists b' thresh,
    _b_state_function (unit_layer false "subtract") (T [1%Qc]) (T [half]) = Return b' /\
    _get_new_thresh (unit_layer false "subtract") b' = Return thresh /\
    forall i, (i < 1)%nat ->
      (0 <= elem b' i)%Qc /\ (elem b' i <= 1)%Qc /\
      (at_ (self_threshold (unit_layer false "subtract")) i <= elem thresh i)%Qc /\
      (elem thresh i <= at_ (self_threshold (unit_layer false "subtract")) i
                        + self_thresh_beta (unit_layer false "subtract"))%Qc.
Proof.
  apply (trace_and_threshold_bounds (unit_layer false "subtract")
           (T [1%Qc]) (T [half]) 1).
  - reflexivity.
  - reflexivity.
  - left. reflexivity.
  - qc_le.
  - qc_le.
  - qc_le.
  - intros i Hi. replace i with 0%nat by lia. split; qc_le.
  - intros i Hi. replace i with 0%nat by lia. split; qc_le.
Defined.

(** ** A decay outside [[0, 1]] *)

Lemma f32_clamp01_high (beta : f32) :
  f32_leb f32_one beta = true -> f32_clamp01 beta = f32_one.
Proof.
  destruct beta as [s | [] | | [] m e];
    unfold f32_leb, SFleb, f32_clamp01, f32_ltb, SFltb, SFcompare, f32_one, f32_zero;
    try discriminate; try reflexivity.
  destruct (Z.compare (-23) e) eqn:He; try discriminate; try reflexivity.
  apply Z.compare_eq in He. subst e.
  destruct (Pos.compare_cont Eq 8388608 m) eqn:Hm; try discriminate;
    try reflexivity.
  apply Pos.compare_eq in Hm. now subst m.
Qed.

Lemma f32_clamp01_low (beta : f32) :
  f32_leb beta f32_zero = true -> exists s, f32_clamp01 beta = S754_zero s.
Proof.
  destruct beta as [s | [] | | [] m e];
    unfold f32_leb, SFleb, f32_clamp01, f32_ltb, SFltb, SFcompare, f32_one, f32_zero;
    try discriminate; intros _; eexists; reflexivity.
Qed.

Lemma f32_add_zero_r (x : f32) (s : bool) :
  f32_finite x = true -> f32_eqb (f32_add x (S754_zero s)) x = true.
Proof.
  destruct x as [s0 | s0 | | s0 m e]; try discriminate; intros H.
  - now destruct s0, s.
  - exact (f32_eqb_refl (S754_finite s0 m e) H).
Qed.

Lemma f32_add_zero_l (x : f32) (s : bool) :
  f32_finite x = true -> f32_eqb (f32_add (S754_zero s) x) x = true.
Proof.
  destruct x as [s0 | s0 | | s0 m e]; try discriminate; intros H.
  - now destruct s0, s.
  - exact (f32_eqb_refl (S754_finite s0 m e) H).
Qed.

(** X3: because the decay is clamped, a unit with [beta >= 1] whose
    potential and drive (input plus feedback) are finite binary32 numbers
    keeps its potential in the explicit convention, input and feedback
    being ignored, and integrates [mem + input + feedback] in the
    owned-state convention; a unit with [beta <= 0] forgets its potential:
    the explicit step gives the drive and the owned-state step adds input
    and feedback to a zero. *)
Theorem decay_outside_unit_interval (beta mem input_ fed_back : f32) :
  f32_finite mem = true ->
  f32_finite (f32_add input_ fed_back) = true ->
  (f32_leb f32_one beta = true ->
   f32_eqb (f32_base_state_function beta mem input_ fed_back) mem = true
   /\ f32_base_state_function_hidden beta mem input_ fed_back
      = f32_add (f32_add mem input_) fed_back)
  /\ (f32_leb beta f32_zero = true ->
      f32_eqb (f32_base_state_function beta mem input_ fed_back)
              (f32_add input_ fed_back) = true
      /\ exists s,
           f32_base_state_function_hidden beta mem input_ fed_back
           = f32_add (f32_add (S754_zero s) input_) fed_back).
Proof.
  intros Hmem Hdrive.
  unfold f32_base_state_function, f32_base_state_function_hidden. split.
  - intros Hhigh. rewrite (f32_clamp01_high beta Hhigh).
    rewrite (f32_mul_one mem Hmem).
    split; [| reflexivity].
    rewrite (f32_sub_self f32_one eq_refl).
    destruct (f32_mul_zero false (f32_add input_ fed_back) Hdrive) as [s Hs].
    unfold f32_zero. rewrite Hs. exact (f32_add_zero_r mem s Hmem).
  - intros Hlow. destruct (f32_clamp01_low beta Hlow) as [s ->].
    destruct (f32_mul_zero s mem Hmem) as [s' ->].
    split; [| exists s'; reflexivity].
    replace (f32_sub f32_one (S754_zero s)) with f32_one by now destruct s.
    rewrite (f32_mul_one _ Hdrive).
    exact (f32_add_zero_l _ s' Hdrive).
Qed.

Lemma decay_outside_unit_interval_witness :
  (f32_leb f32_one f32_two = true ->
   f32_eqb (f32_base_state_function f32_two f32_half f32_one f32_one) f32_half = true
   /\ f32_base_state_function_hidden f32_two f32_half f32_one f32_one
      = f32_add (f32_add f32_half f32_one) f32_one)
  /\ (f32_leb f32_two f32_zero = true ->
      f32_eqb (f32_base_state_function f32_two f32_half f32_one f32_one)
              (f32_add f32_one f32_one) = true
      /\ exists s,
           f32_base_state_function_hidden f32_two f32_half f32_one f32_one
           = f32_add (f32_add (S754_zero s) f32_one) f32_one).
Proof.
  apply (decay_outside_unit_interval f32_two f32_half f32_one f32_one).
  - reflexivity.
  - reflexivity.
Defined.

(** Without the finiteness the first part fails: with [beta = 2], input and
    feedback both near 3e38, the drive overflows to infinity, [0 * inf] is
    NaN and so is the new potential. *)
Lemma decay_outside_overflow :
  f32_leb f32_one f32_two = true
  /\ f32_add f32_big f32_big = f32_inf
  /\ f32_base_state_function f32_two f32_half f32_big f32_big = f32_nan.
Proof. repeat split; vm_compute; reflexivity. Qed.

(** ** Input of another size *)

Lemma broadcast2_mismatch (f : Qc -> Qc -> Qc) (x y : tensor) :
  length x <> length y -> length x <> 1%nat -> length y <> 1%nat ->
  broadcast2 f x y = Raise (RuntimeError shape_msg).
Proof.
  intros Hxy Hx Hy. unfold broadcast2.
  destruct (Nat.eqb_spec (length x) (length y)); [contradiction |].
  destruct x as [| a [| a' x]]; destruct y as [| c [| c' y]];
    simpl in *; try reflexivity; contradiction.
Qed.

Lemma tadd_mismatch (x y : pyval) :
  size0 x <> size0 y -> size0 x <> 1%nat -> size0 y <> 1%nat ->
  tadd x y = Raise (RuntimeError shape_msg).
Proof.
  intros Hxy Hx Hy. unfold tadd.
  now rewrite (broadcast2_mismatch Qcplus (operand x) (operand y) Hxy Hx Hy).
Qed.

Lemma broadcast2_raises (f : Qc -> Qc -> Qc) (x y : tensor) (e : exn) :
  broadcast2 f x y = Raise e -> e = RuntimeError shape_msg.
Proof.
  unfold broadcast2. destruct (Nat.eqb (length x) (length y)); [discriminate |].
  destruct x as [| a [| a' x]]; destruct y as [| c [| c' y]];
    intros H; try discriminate H; now injection H as <-.
Qed.

Lemma tmul_raises (x y : pyval) (e : exn) :
  tmul x y = Raise e -> e = RuntimeError shape_msg.
Proof.
  unfold tmul. destruct (broadcast2 Qcmult (operand x) (operand y)) eqn:Hb; simpl;
    intros H; [discriminate H |].
  injection H as <-. exact (broadcast2_raises _ _ _ _ Hb).
Qed.

Lemma tsub_tensors_raises (x y : pyval) (e : exn) :
  is_False x = false -> is_False y = false ->
  tsub x y = Raise e -> e = RuntimeError shape_msg.
Proof.
  destruct x as [| fx dx]; [discriminate |]. destruct y as [| fy dy]; [discriminate |].
  intros _ _. unfold tsub. destruct (broadcast2 Qcminus dx dy) eqn:Hb; simpl;
    intros H; [discriminate H |].
  injection H as <-. exact (broadcast2_raises _ _ _ _ Hb).
Qed.

Section OtherSize.

Context {E : Env}.

Lemma base_state_function_hidden_mismatch (self : LLeaky) (input_ : tensor)
  (own_mem : pyval) (n : nat) :
  self_mem self = Some own_mem ->
  size0 own_mem = n ->
  length (self_beta self) = n \/ length (self_beta self) = 1%nat ->
  length input_ <> n -> length input_ <> 1%nat -> n <> 1%nat ->
  _base_state_function_hidden self input_ = Raise (RuntimeError shape_msg).
Proof.
  intros Hmem Sn Hbeta Hne Hm1 Hn1. unfold _base_state_function_hidden.
  rewrite Hmem. simpl.
  destruct (tmul_returns (T (clamp 0 1 (self_beta self))) own_mem) as (decayed & -> & Sd).
  { rewrite size0_clamp, Sn. destruct Hbeta; auto. }
  simpl.
  assert (Sd' : size0 decayed = n).
  { rewrite Sd, size0_clamp, Sn. destruct Hbeta as [-> | ->];
      [apply broadcast_size_same | apply broadcast_size_one_l]. }
  rewrite tadd_mismatch; [reflexivity | | |].
  - rewrite Sd'. unfold size0. simpl. congruence.
  - congruence.
  - unfold size0. simpl. exact Hm1.
Qed.

(** X4: the shape of the owned state is bound once: a later call whose input
    has another size raises torch's size error under every reset policy,
    with [self.reset] already overwritten and the owned spike, potential and
    trace as they were. *)
Theorem hidden_step_other_size
  (self : LLeaky) (input_ : tensor) (b own_mem : pyval) (n : nat) :
  self_init_hidden self = true ->
  self_mem self = Some own_mem ->
  hasattr_init_flag own_mem = false ->
  size0 own_mem = n ->
  length (self_beta self) = n \/ length (self_beta self) = 1%nat ->
  length input_ <> n -> length input_ <> 1%nat -> n <> 1%nat ->
  self_reset_mechanism_val self = 0%Z \/ self_reset_mechanism_val self = 1%Z
  \/ self_reset_mechanism_val self = 2%Z ->
  forward input_ PyFalse PyFalse b self
  = (Raise (RuntimeError shape_msg), set_reset (mem_reset self own_mem) self).
Proof.
  intros Hh Hmem Hflag Sn Hbeta Hne Hm1 Hn1 Hval.
  rewrite forward_defaults_owned by exact Hh. rewrite Hmem, Hflag.
  unfold forward_hidden.
  rewrite (bind_step _ _ self self tt) by reflexivity.
  rewrite (bind_step _ _ self self own_mem) by (unfold reading; now rewrite Hmem).
  rewrite (bind_step _ _ self self self) by reflexivity.
  rewrite (bind_step _ _ self (set_reset (mem_reset self own_mem) self) tt)
    by reflexivity.
  unfold bind, reading.
  assert (Hraise : _build_state_function_hidden
                     (set_reset (mem_reset self own_mem) self) input_
                   = Raise (RuntimeError shape_msg)).
  { pose proof (base_state_function_hidden_mismatch
                  (set_reset (mem_reset self own_mem) self) input_ own_mem n
                  Hmem Sn Hbeta Hne Hm1 Hn1) as Hb.
    unfold _build_state_function_hidden.
    change (self_reset_mechanism_val (set_reset (mem_reset self own_mem) self))
      with (self_reset_mechanism_val self).
    destruct Hval as [-> | [-> | ->]]; simpl; rewrite Hb; reflexivity. }
  rewrite Hraise. reflexivity.
Qed.

Lemma base_state_function_mismatch (self : LLeaky) (input_ : tensor)
  (spk mem : pyval) (recurrent : Recurrent) (fed : pyval) (n : nat) :
  self_recurrent self = Some recurrent ->
  recurrent_call recurrent spk = Return fed ->
  size0 fed = n ->
  length input_ <> n -> length input_ <> 1%nat -> n <> 1%nat ->
  _base_state_function self input_ spk mem = Raise (RuntimeError shape_msg).
Proof.
  intros Hrec Hfed Sn Hne Hm1 Hn1. unfold _base_state_function.
  destruct (tsub_returns (scalar 1) (T (clamp 0 1 (self_beta self))))
    as (gain & Hg & _ & _); auto.
  destruct (tmul (T (clamp 0 1 (self_beta self))) mem) as [decayed | e] eqn:Hd;
    cbn [obind].
  - rewrite Hg. cbn [obind]. rewrite Hrec. cbn [obind getattr].
    rewrite Hfed. cbn [obind].
    rewrite tadd_mismatch; [reflexivity | | |].
    + unfold size0 at 1. simpl. congruence.
    + unfold size0. simpl. exact Hm1.
    + congruence.
  - now rewrite (tmul_raises _ _ _ Hd).
Qed.

(** X5: with explicit state, an input whose size differs from the state's
    raises torch's size error under every reset policy, after [self.reset]
    has been overwritten: the layer is not left as it was. *)
Theorem explicit_step_other_size
  (self : LLeaky) (input_ : tensor) (spk mem b : pyval)
  (recurrent : Recurrent) (fed : pyval) (n : nat) :
  self_init_hidden self = false ->
  hasattr_init_flag spk = false -> hasattr_init_flag mem = false ->
  is_False mem = false ->
  size0 spk = n -> size0 b = n ->
  length (self_threshold self) = n \/ length (self_threshold self) = 1%nat ->
  self_recurrent self = Some recurrent ->
  recurrent_call recurrent spk = Return fed ->
  size0 fed = n ->
  length input_ <> n -> length input_ <> 1%nat -> n <> 1%nat ->
  self_reset_mechanism_val self = 0%Z \/ self_reset_mechanism_val self = 1%Z
  \/ self_reset_mechanism_val self = 2%Z ->
  exists b' thresh,
    _b_state_function self spk b = Return b' /\
    _get_new_thresh self b' = Return thresh /\
    forward input_ spk mem b self
    = (Raise (RuntimeError shape_msg),
       set_reset (alif_mem_reset self mem b' thresh) self).
Proof.
  intros Hh Hfs Hfm Hmem Sspk Sb Hth Hrec Hfed Sfed Hne Hm1 Hn1 Hval.
  destruct (b_state_function_returns self spk b n Sspk Sb) as (b' & Hb' & _ & Sb').
  destruct (get_new_thresh_returns self b' n Sb' Hth) as (thresh & Hthresh & Fth & _).
  exists b', thresh. split; [exact Hb' |]. split; [exact Hthresh |].
  unfold forward, forward_init. rewrite Hfs, Hfm, Hmem. simpl.
  rewrite (bind_step _ _ self self (spk, mem, b)) by reflexivity.
  rewrite (bind_step _ _ self self self) by reflexivity.
  rewrite Hh. simpl. unfold forward_explicit.
  rewrite (bind_step _ _ self self b') by (unfold reading; now rewrite Hb').
  rewrite (bind_step _ _ self self thresh) by (unfold reading; now rewrite Hthresh).
  rewrite (bind_step _ _ self self self) by reflexivity.
  rewrite (bind_step _ _ self (set_reset (alif_mem_reset self mem b' thresh) self) tt)
    by reflexivity.
  set (self' := set_reset (alif_mem_reset self mem b' thresh) self).
  assert (Hbase : forall m0, _base_state_function self' input_ spk m0
                             = Raise (RuntimeError shape_msg)).
  { intros m0. apply (base_state_function_mismatch self' input_ spk m0 recurrent fed n);
      assumption. }
  assert (Hraise : _build_state_function self' input_ spk mem thresh
                   = Raise (RuntimeError shape_msg)).
  { unfold _build_state_function.
    change (self_reset_mechanism_val self') with (self_reset_mechanism_val self).
    destruct Hval as [-> | [-> | ->]]; simpl; try (rewrite Hbase; reflexivity).
    destruct (tmul (alif_mem_reset self mem b' thresh) thresh) as [amount | e] eqn:Ha;
      simpl; [| now rewrite (tmul_raises _ _ _ Ha)].
    destruct (tsub mem amount) as [lowered | e] eqn:Hl; simpl; [apply Hbase |].
    now rewrite (tsub_tensors_raises _ _ _ Hmem (tmul_is_tensor _ _ _ Ha) Hl). }
  unfold bind, reading. rewrite Hraise. reflexivity.
Qed.

End OtherSize.

Lemma hidden_step_other_size_witness :
  forward (E := reference_env) [1%Qc; 1%Qc; 1%Qc] PyFalse PyFalse (T [half])
    (wide_layer "subtract")
  = (Raise (RuntimeError shape_msg),
     set_reset (mem_reset (wide_layer "subtract") (T [1%Qc; 1%Qc]))
       (wide_layer "subtract")).
Proof.
  apply (hidden_step_other_size (E := reference_env) (wide_layer "subtract")
           [1%Qc; 1%Qc; 1%Qc] (T [half]) (T [1%Qc; 1%Qc]) 2).
  - reflexivity.
  - qc_eq.
  - reflexivity.
  - reflexivity.
  - right. reflexivity.
  - discriminate.
  - discriminate.
  - discriminate.
  - left. reflexivity.
Defined.

Lemma explicit_step_other_size_witness :
  exists b' thresh,
    _b_state_function (unit_layer false "subtract") (T [0%Qc; 0%Qc]) (T [0%Qc; 0%Qc])
    = Return b' /\
    _get_new_thresh (unit_layer false "subtract") b' = Return thresh /\
    forward (E := reference_env) [1%Qc; 1%Qc; 1%Qc] (T [0%Qc; 0%Qc]) (T [0%Qc; 0%Qc])
      (T [0%Qc; 0%Qc]) (unit_layer false "subtract")
    = (Raise (RuntimeError shape_msg),
       set_reset (alif_mem_reset (unit_layer false "subtract") (T [0%Qc; 0%Qc])
                    b' thresh)
         (unit_layer false "subtract")).
Proof.
  apply (explicit_step_other_size (E := reference_env) (unit_layer false "subtract")
           [1%Qc; 1%Qc; 1%Qc] (T [0%Qc; 0%Qc]) (T [0%Qc; 0%Qc]) (T [0%Qc; 0%Qc])
           (RecurrentOneToOne [0%Qc]) (T [0%Qc; 0%Qc]) 2).
  - reflexivity.
  - reflexivity.
  - reflexivity.
  - reflexivity.
  - reflexivity.
  - reflexivity.
  - right. reflexivity.
  - reflexivity.
  - qc_eq.
  - reflexivity.
  - discriminate.
  - discriminate.
  - discriminate.
  - left. reflexivity.
Defined.

(** ** What a step leaves alone *)

Lemma same_config_refl (s : LLeaky) : same_config s s.
Proof. repeat split. Qed.

Lemma same_config_trans (s1 s2 s3 : LLeaky) :
  same_config s1 s2 -> same_config s2 s3 -> same_config s1 s3.
Proof.
  unfold same_config. intros H12 H23.
  repeat match goal with
         | H : _ /\ _ |- _ => destruct H
         end.
  repeat split; congruence.
Qed.

Lemma only_reset_differs_refl (s : LLeaky) : only_reset_differs s s.
Proof. repeat split. Qed.

Lemma only_reset_differs_trans (s1 s2 s3 : LLeaky) :
  only_reset_differs s1 s2 -> only_reset_differs s2 s3 -> only_reset_differs s1 s3.
Proof.
  intros (C12 & S12 & M12 & B12) (C23 & S23 & M23 & B23).
  split; [exact (same_config_trans _ _ _ C12 C23) |].
  repeat split; congruence.
Qed.

Ltac preserve_with refl trans :=
  repeat first
    [ apply (preserves_ret _ refl)
    | apply (preserves_lift _ refl)
    | apply (preserves_reading _ refl)
    | apply (preserves_assign _); intros ?; solve [repeat split]
    | apply (preserves_bind _ trans); [| intros ?]
    | progress cbv zeta
    | match goal with
      | |- preserves _ (if ?c then _ else _) => destruct c
      | |- preserves _ (match ?c with _ => _ end) => destruct c
      end ].

Section Untouched.

Context {E : Env}.

Lemma forward_init_same_config (input_ : tensor) (spk mem b : pyval) :
  preserves same_config (forward_init input_ spk mem b).
Proof.
  unfold forward_init, _SpikeTorchConv.
  preserve_with same_config_refl same_config_trans.
Qed.

Lemma forward_explicit_only_reset (input_ : tensor) (spk mem b : pyval) :
  preserves only_reset_differs (forward_explicit input_ spk mem b).
Proof.
  unfold forward_explicit.
  preserve_with only_reset_differs_refl only_reset_differs_trans.
Qed.

Lemma forward_hidden_same_config (input_ : tensor) (spk mem : pyval) :
  preserves same_config (forward_hidden input_ spk mem).
Proof.
  unfold forward_hidden, quantize_owned.
  preserve_with same_config_refl same_config_trans.
Qed.

(** X6: no call of [forward], in either convention, with any arguments, and
    whether it returns or raises, changes what the constructor configured:
    the base attributes, the connectivity fields, [rho_b], the coupling,
    [V], the padding and the recurrent projection. *)
Theorem forward_keeps_configuration
  (self : LLeaky) (input_ : tensor) (spk mem b : pyval) :
  same_config self (snd (forward input_ spk mem b self)).
Proof.
  revert self. change (preserves same_config (forward input_ spk mem b)).
  unfold forward.
  apply (preserves_bind _ same_config_trans); [apply forward_init_same_config |].
  intros [[spk' mem'] b'].
  apply (preserves_bind _ same_config_trans);
    [apply (preserves_reading _ same_config_refl) |].
  intros s. destruct (negb (self_init_hidden s)).
  - intros s0. exact (proj1 (forward_explicit_only_reset input_ spk' mem' b' s0)).
  - apply forward_hidden_same_config.
Qed.

(** X7: a layer with explicit state that is handed a potential writes nothing
    but [self.reset]: the caller's state is never stored in the layer, but
    the layer is not stateless either. *)
Theorem explicit_step_writes_reset_only
  (self : LLeaky) (input_ : tensor) (spk mem b : pyval) :
  self_init_hidden self = false ->
  is_False mem = false ->
  only_reset_differs self (snd (forward input_ spk mem b self)).
Proof.
  intros Hh Hmem. unfold forward, forward_init. rewrite Hmem.
  destruct (hasattr_init_flag spk || hasattr_init_flag mem).
  - rewrite (bind_step _ _ self self (_SpikeTorchConv (spk, mem, b) input_))
      by reflexivity.
    unfold _SpikeTorchConv.
    rewrite (bind_step _ _ self self self) by reflexivity.
    rewrite Hh. simpl. apply forward_explicit_only_reset.
  - rewrite (bind_step _ _ self self (spk, mem, b)) by reflexivity.
    rewrite (bind_step _ _ self self self) by reflexivity.
    rewrite Hh. simpl. apply forward_explicit_only_reset.
Qed.

(** X8: the step on owned state returns what it stores: the spike it returns
    is [self.spk] after the call, and the potential, returned only under
    [output], is [self.mem]. *)
Theorem hidden_step_returns_stored
  (self final : LLeaky) (input_ : tensor) (spk mem b : pyval) (r : forward_result) :
  self_init_hidden self = true ->
  forward input_ spk mem b self = (Return r, final) ->
  match r with
  | Spk s => self_output final = false /\ self_spk final = Some s
  | Spk_mem s m =>
      self_output final = true /\ self_spk final = Some s /\ self_mem final = Some m
  | Spk_mem_b _ _ _ => False
  end.
Proof.
  intros Hh H. unfold forward in H.
  apply bind_Return in H. destruct H as ([[spk' mem'] b'] & s1 & Hinit & H).
  pose proof (proj1 (forward_init_trace_kept input_ spk mem b self)) as Hbase.
  rewrite Hinit in Hbase. simpl in Hbase.
  apply bind_Return in H. destruct H as (s2 & s3 & Hget & H).
  unfold get in Hget. injection Hget as <- <-.
  unfold self_init_hidden in *. rewrite Hbase, Hh in H. simpl in H.
  unfold forward_hidden in H.
  repeat (apply bind_Return in H; destruct H as (? & ? & ? & H)).
  apply reading_Return in H12. destruct H12 as [H12 ->].
  apply reading_Return in H11. destruct H11 as [H11 ->].
  unfold get in H10. injection H10 as -> ->.
  apply getattr_Return in H11, H12.
  destruct (self_output x20) eqn:Hout; unfold ret in H; injection H as <- <-;
    repeat split; assumption.
Qed.

End Untouched.

Lemma explicit_step_writes_reset_only_witness :
  only_reset_differs (unit_layer false "zero")
    (snd (forward (E := reference_env) [1%Qc] (T [0%Qc]) (T [0%Qc]) (T [0%Qc])
            (unit_layer false "zero"))).
Proof.
  apply (explicit_step_writes_reset_only (E := reference_env)
           (unit_layer false "zero") [1%Qc] (T [0%Qc]) (T [0%Qc]) (T [0%Qc])).
  - reflexivity.
  - reflexivity.
Defined.

Lemma hidden_step_returns_stored_witness :
  self_output (snd (forward (E := reference_env) [0%Qc] PyFalse PyFalse PyFalse
                      (stepped_layer "zero"))) = false
  /\ self_spk (snd (forward (E := reference_env) [0%Qc] PyFalse PyFalse PyFalse
                      (stepped_layer "zero"))) = Some (T [0%Qc]).
Proof.
  apply (hidden_step_returns_stored (E := reference_env) (stepped_layer "zero")
           (snd (forward (E := reference_env) [0%Qc] PyFalse PyFalse PyFalse
                   (stepped_layer "zero")))
           [0%Qc] PyFalse PyFalse PyFalse (Spk (T [0%Qc]))).
  - reflexivity.
  - vm_compute. reflexivity.
Defined.

(** ** What the constructor builds *)

Section Constructor.

Context {E : Env}.

(** What [__init__] has done when it returns: the validator accepted, the
    base attributes are those of the base constructor, the state triple is
    the one [init_lleaky] gave exactly when [init_hidden] is set. *)
Lemma constructed_layer (a : Args) (obj : LLeaky) :
  __init__ a = (Return tt, Some obj) ->
  ALIF_init (arg_beta a) (arg_threshold a) (arg_init_hidden a)
    (arg_inhibition a) (arg_learn_beta a) (arg_reset_mechanism a)
    (arg_state_quant a) (arg_output a) = Return (self_base obj)
  /\ self_recurrent_requires_grad obj = arg_learn_recurrent a
  /\ self_reset obj = None
  /\ (if self_init_hidden obj
      then exists before,
             self_spk obj = Some (fst (fst (init_lleaky before)))
             /\ self_mem obj = Some (snd (fst (init_lleaky before)))
             /\ self_b obj = Some (snd (init_lleaky before))
      else self_spk obj = None /\ self_mem obj = None /\ self_b obj = None).
Proof.
  unfold __init__. intros H.
  destruct (ALIF_init _ _ _ _ _ _ _ _) as [base | e]; [| discriminate H].
  destruct (Qc_eq_bool (arg_tau_adaptation a) 0); [discriminate H |].
  destruct (init_body a (fresh_object base a)) as [r obj'] eqn:Hrun.
  injection H as -> ->.
  assert (Hok : _lleaky_init_cases (fresh_object base a) = Return tt).
  { unfold init_body in Hrun. apply bind_Return in Hrun.
    destruct Hrun as ([] & s1 & Hv & _).
    apply reading_Return in Hv. exact (proj1 Hv). }
  destruct (init_body_fresh a base Hok)
    as [(obj'' & Hrun' & Hb & Hg & Hr & Hst & _) | (_ & obj'' & Hrun' & _)];
    [| congruence].
  assert (obj'' = obj) by congruence. subst obj''.
  unfold self_init_hidden. rewrite Hb. repeat split; assumption.
Qed.

(** X9: for every accepted configuration whose sizes are positive the
    constructor completes, and the projection it stores is the one the
    arguments name: a linear map of the given size on both sides, a
    convolution with the given channels on both sides, the given kernel and
    the padding [kernel // 2] per axis (also stored in [self.padding]), or
    the one-to-one product with the registered weight [V]. *)
Theorem constructor_builds_projection (a : Args) (base : ALIF_attrs) :
  ALIF_init (arg_beta a) (arg_threshold a) (arg_init_hidden a)
    (arg_inhibition a) (arg_learn_beta a) (arg_reset_mechanism a)
    (arg_state_quant a) (arg_output a) = Return base ->
  Qc_eq_bool (arg_tau_adaptation a) 0 = false ->
  table_accepts (arg_all_to_all a) (truthy_int (arg_linear_features a))
    (truthy_int (arg_conv2d_channels a)) (truthy_kernel (arg_kernel_size a)) ->
  positive_sizes a = true ->
  exists obj,
    __init__ a = (Return tt, Some obj)
    /\ match self_recurrent obj with
       | Some (Linear i o) =>
           arg_all_to_all a = true /\ arg_linear_features a = Some i /\ o = i
       | Some (Conv2d i o k p) =>
           arg_all_to_all a = true
           /\ truthy_int (arg_linear_features a) = false
           /\ arg_conv2d_channels a = Some i /\ o = i
           /\ arg_kernel_size a = Some k
           /\ p = (kernel_axis k false / 2, kernel_axis k true / 2)%Z
           /\ self_padding obj = Some p
       | Some (RecurrentOneToOne V) =>
           arg_all_to_all a = false
           /\ V = _V_register_buffer (arg_V a) (arg_learn_recurrent a)
           /\ self_V obj = Some V
       | None => False
       end.
Proof.
  intros Hbase Htau Htab Hpos.
  assert (Hok : _lleaky_init_cases (fresh_object base a) = Return tt)
    by (apply (init_cases_table (fresh_object base a)); exact Htab).
  destruct (init_body_fresh a base Hok)
    as [(obj & Hrun & _ & _ & _ & _ & Hrec) | (Hneg & _)]; [| congruence].
  exists obj. split; [| exact Hrec].
  unfold __init__. now rewrite Hbase, Htau, Hrun.
Qed.

(** X10: a layer the constructor has built keeps the attributes of the base
    constructor, its recurrent weights require gradients exactly when
    [learn_recurrent] is set, [self.reset] is not assigned before the first
    step, and the state triple is assigned exactly when [init_hidden] is
    set: a layer with explicit state has no [spk], [mem] or [b]
    attribute. *)
Theorem constructor_state (a : Args) (obj : LLeaky) :
  __init__ a = (Return tt, Some obj) ->
  ALIF_init (arg_beta a) (arg_threshold a) (arg_init_hidden a)
    (arg_inhibition a) (arg_learn_beta a) (arg_reset_mechanism a)
    (arg_state_quant a) (arg_output a) = Return (self_base obj)
  /\ self_recurrent_requires_grad obj = arg_learn_recurrent a
  /\ self_reset obj = None
  /\ (if self_init_hidden obj
      then self_spk obj <> None /\ self_mem obj <> None /\ self_b obj <> None
      else self_spk obj = None /\ self_mem obj = None /\ self_b obj = None).
Proof.
  intros H.
  destruct (constructed_layer a obj H) as (Hb & Hg & Hr & Hst).
  split; [exact Hb |]. split; [exact Hg |]. split; [exact Hr |].
  destruct (self_init_hidden obj); [| exact Hst].
  destruct Hst as (before & -> & -> & ->). repeat split; discriminate.
Qed.

(** A constructed layer without [init_hidden] has no [mem] attribute. *)
Lemma constructed_explicit_has_no_mem (a : Args) (obj : LLeaky) :
  __init__ a = (Return tt, Some obj) ->
  self_init_hidden obj = false ->
  self_mem obj = None.
Proof.
  intros H Hh.
  destruct (constructed_layer a obj H) as (_ & _ & _ & Hst).
  rewrite Hh in Hst. exact (proj1 (proj2 Hst)).
Qed.

End Constructor.

Lemma constructor_builds_projection_witness :
  exists obj,
    __init__ (E := reference_env) conv_args = (Return tt, Some obj)
    /\ match self_recurrent obj with
       | Some (Linear i o) =>
           arg_all_to_all conv_args = true
           /\ arg_linear_features conv_args = Some i /\ o = i
       | Some (Conv2d i o k p) =>
           arg_all_to_all conv_args = true
           /\ truthy_int (arg_linear_features conv_args) = false
           /\ arg_conv2d_channels conv_args = Some i /\ o = i
           /\ arg_kernel_size conv_args = Some k
           /\ p = (kernel_axis k false / 2, kernel_axis k true / 2)%Z
           /\ self_padding obj = Some p
       | Some (RecurrentOneToOne V) =>
           arg_all_to_all conv_args = false
           /\ V = _V_register_buffer (arg_V conv_args) (arg_learn_recurrent conv_args)
           /\ self_V obj = Some V
       | None => False
       end.
Proof.
  apply (constructor_builds_projection (E := reference_env) conv_args missing_base).
  - reflexivity.
  - reflexivity.
  - right. left. repeat split.
  - reflexivity.
Defined.

Lemma constructor_state_witness :
  ALIF_init (Env := reference_env) [half] [half] true false false "zero" None false
  = Return (self_base (unit_layer true "zero"))
  /\ self_recurrent_requires_grad (unit_layer true "zero") = true
  /\ self_reset (unit_layer true "zero") = None
  /\ (if self_init_hidden (unit_layer true "zero")
      then self_spk (unit_layer true "zero") <> None
           /\ self_mem (unit_layer true "zero") <> None
           /\ self_b (unit_layer true "zero") <> None
      else self_spk (unit_layer true "zero") = None
           /\ self_mem (unit_layer true "zero") = None
           /\ self_b (unit_layer true "zero") = None).
Proof.
  apply (constructor_state (E := reference_env) (unit_args true "zero")
           (unit_layer true "zero")).
  reflexivity.
Defined.

(** ** The registry *)

Lemma detach_hidden_one_owned (i : instance) :
  detach_hidden_one i = Return tt <-> owns_spk_mem i.
Proof.
  destruct i as [layer |]; simpl; [| tauto].
  destruct (self_mem layer), (self_spk layer); simpl; split;
    try discriminate; try reflexivity;
    try (intros [H1 H2]; congruence); intros _; split; discriminate.
Qed.

Lemma detach_hidden_one_raises (i : instance) (e : exn) :
  detach_hidden_one i = Raise e ->
  e = AttributeError "mem" \/ e = AttributeError "spk".
Proof.
  destruct i as [layer |]; simpl; [| discriminate].
  destruct (self_mem layer), (self_spk layer); simpl; intros H;
    try discriminate H; injection H as <-; auto.
Qed.

Lemma detach_hidden_owned (instances : list instance) :
  Forall owns_spk_mem instances -> detach_hidden instances = Return tt.
Proof.
  induction 1 as [| i rest Hi _ IH]; simpl; [reflexivity |].
  apply detach_hidden_one_owned in Hi. now rewrite Hi.
Qed.

(** X11: [detach_hidden] returns exactly when every registered [LLeaky] has
    both a [mem] and a [spk] attribute; otherwise it raises an
    [AttributeError] on the first layer that lacks one. *)
Theorem detach_hidden_needs_owned_state (instances : list instance) :
  (detach_hidden instances = Return tt <-> Forall owns_spk_mem instances)
  /\ (forall e, detach_hidden instances = Raise e ->
      e = AttributeError "mem" \/ e = AttributeError "spk").
Proof.
  induction instances as [| i rest [IHok IHraise]]; simpl.
  - split; [split; [constructor | reflexivity] | discriminate].
  - destruct (detach_hidden_one i) as [[] | e0] eqn:Hone; simpl.
    + apply detach_hidden_one_owned in Hone. split.
      * split.
        -- intros H. constructor; [exact Hone | now apply IHok].
        -- intros H. inversion H; subst. now apply IHok.
      * exact IHraise.
    + split.
      * split; [discriminate |].
        intros H. inversion H as [| ? ? Hi _]; subst.
        apply detach_hidden_one_owned in Hi. congruence.
      * intros e H. injection H as <-. exact (detach_hidden_one_raises _ _ Hone).
Qed.

Section Registry.

Context {E : Env}.

Lemma reset_hidden_owned (instances : list instance) :
  Forall owns_spk_mem (reset_hidden instances).
Proof.
  unfold reset_hidden. induction instances as [| i rest IH]; simpl; constructor;
    [| exact IH].
  destruct i as [layer |]; simpl; [| exact I].
  destruct (init_rleaky layer) as [spk mem]. simpl. split; discriminate.
Qed.

(** X12: after [reset_hidden], [detach_hidden] never raises: the reset gives
    every registered [LLeaky], also one with explicit state, a [spk] and a
    [mem] attribute. *)
Theorem detach_after_reset (instances : list instance) :
  detach_hidden (reset_hidden instances) = Return tt.
Proof.
  apply detach_hidden_owned. apply reset_hidden_owned.
Qed.

(** X13: [reset_hidden] keeps the registry's length and order, leaves instances
    of other classes alone, and changes neither the configuration nor the
    [reset] attribute of a layer. *)
Theorem reset_hidden_keeps_registry (instances : list instance) (i : nat) :
  length (reset_hidden instances) = length instances
  /\ match nth_error instances i with
     | Some (LLeaky_instance layer) =>
         exists layer',
           nth_error (reset_hidden instances) i = Some (LLeaky_instance layer')
           /\ same_config layer layer'
           /\ self_reset layer' = self_reset layer
     | Some Other_instance =>
         nth_error (reset_hidden instances) i = Some Other_instance
     | None => nth_error (reset_hidden instances) i = None
     end.
Proof.
  unfold reset_hidden. split; [apply length_map |].
  rewrite nth_error_map.
  destruct (nth_error instances i) as [[layer |] |]; simpl; try reflexivity.
  destruct (init_rleaky layer) as [spk mem].
  eexists. split; [reflexivity |]. repeat split.
Qed.

(** X14: a layer constructed without [init_hidden] makes [detach_hidden] raise:
    with such a layer in the registry, after layers that own their state,
    the call stops with an [AttributeError] on [mem]. *)
Theorem detach_rejects_explicit_layer
  (a : Args) (obj : LLeaky) (before after : list instance) :
  __init__ a = (Return tt, Some obj) ->
  self_init_hidden obj = false ->
  Forall owns_spk_mem before ->
  detach_hidden (before ++ LLeaky_instance obj :: after)
  = Raise (AttributeError "mem").
Proof.
  intros Hinit Hh Hbefore.
  pose proof (constructed_explicit_has_no_mem a obj Hinit Hh) as Hmem.
  induction Hbefore as [| i rest Hi _ IH]; simpl.
  - now rewrite Hmem.
  - apply detach_hidden_one_owned in Hi. rewrite Hi. simpl. exact IH.
Qed.

End Registry.

Lemma detach_rejects_explicit_layer_witness :
  detach_hidden
    ([LLeaky_instance (stepped_layer "zero")]
       ++ LLeaky_instance (unit_layer false "zero") :: [Other_instance])
  = Raise (AttributeError "mem").
Proof.
  apply (detach_rejects_explicit_layer (E := reference_env)
           (unit_args false "zero") (unit_layer false "zero")
           [LLeaky_instance (stepped_layer "zero")] [Other_instance]).
  - reflexivity.
  - reflexivity.
  - constructor; [| constructor]. split; discriminate.
Defined.

(** ** The first pass *)

Lemma size0_zeros_like (x : tensor) : size0 (zeros_like x) = length x.
Proof. unfold size0, zeros_like. simpl. apply length_map. Qed.

Lemma elem_zeros_like (x : tensor) (i : nat) : elem (zeros_like x) i = 0%Qc.
Proof.
  unfold elem, zeros_like, at_. simpl. rewrite length_map.
  assert (H : forall j, nth j (map (fun _ : Qc => 0%Qc) x) 0%Qc = 0%Qc).
  { induction x as [| a x IH]; intros [| j]; simpl; auto. }
  apply H.
Qed.

Section FirstPass.

Context {E : Env}.

(** X15: the first call on a layer that owns its state, while the stored
    potential is still the uninitialised sentinel, does exactly what the
    same call does on the layer with an all-zero state of the input's
    shape. *)
Theorem hidden_first_call_as_zero_state
  (self : LLeaky) (input_ : tensor) (b own_spk own_mem own_b : pyval) :
  self_init_hidden self = true ->
  self_spk self = Some own_spk ->
  self_mem self = Some own_mem ->
  self_b self = Some own_b ->
  hasattr_init_flag own_mem = true ->
  forward input_ PyFalse PyFalse b self
  = forward input_ PyFalse PyFalse b (converted input_ self).
Proof.
  intros Hh Hspk Hmem Hb Hflag.
  rewrite (forward_defaults_owned input_ b self Hh).
  rewrite (forward_defaults_owned input_ b (converted input_ self)) by exact Hh.
  rewrite Hmem, Hflag, Hspk, Hb. reflexivity.
Qed.

(** When the spike or the potential passed to [forward] is an
    uninitialised sentinel, all three state arguments are replaced: the
    call does what it does on three all-zero tensors of the input's shape,
    so a trace passed along with a sentinel is discarded. *)
Lemma sentinel_arguments_as_zeros
  (self : LLeaky) (input_ : tensor) (spk mem b : pyval) :
  hasattr_init_flag spk || hasattr_init_flag mem = true ->
  forward input_ spk mem b self
  = forward input_ (zeros_like input_) (zeros_like input_) (zeros_like input_) self.
Proof.
  intros Hflag. unfold forward, forward_init. rewrite Hflag. reflexivity.
Qed.

(** X16: on a first explicit step, where the spike or the potential passed
    is an uninitialised sentinel, the returned trace is all zero, of the
    input's size, whatever trace was passed. *)
Theorem first_explicit_step_zero_trace
  (self : LLeaky) (input_ : tensor) (spk mem b : pyval) :
  self_init_hidden self = false ->
  hasattr_init_flag spk || hasattr_init_flag mem = true ->
  exists b',
    _b_state_function self (zeros_like input_) (zeros_like input_) = Return b'
    /\ size0 b' = length input_
    /\ (forall i, (i < length input_)%nat -> elem b' i = 0%Qc)
    /\ (forall r final,
          forward input_ spk mem b self = (Return r, final) ->
          exists spk' mem', r = Spk_mem_b spk' mem' b').
Proof.
  intros Hh Hflag.
  destruct (b_state_function_returns self (zeros_like input_) (zeros_like input_)
              (length input_) (size0_zeros_like _) (size0_zeros_like _))
    as (b' & Hb' & _ & Sb').
  exists b'. split; [exact Hb' |]. split; [exact Sb' |]. split.
  - intros i Hi.
    rewrite (b_state_function_elem _ _ _ _ Hb' i) by (apply covers_lt; lia).
    rewrite !elem_zeros_like. ring.
  - intros r final H. unfold forward, forward_init in H. rewrite Hflag in H.
    rewrite (bind_step _ _ self self
               (zeros_like input_, zeros_like input_, zeros_like input_))
      in H by reflexivity.
    rewrite (bind_step _ _ self self self) in H by reflexivity.
    rewrite Hh in H. simpl in H.
    destruct (forward_explicit_trace _ _ _ _ _ _ _ H) as (s' & m' & b'' & -> & Hb'').
    exists s', m'. congruence.
Qed.

End FirstPass.

Lemma hidden_first_call_as_zero_state_witness :
  forward (E := reference_env) [1%Qc] PyFalse PyFalse (T [half]) (unit_layer true "zero")
  = forward (E := reference_env) [1%Qc] PyFalse PyFalse (T [half])
      (converted [1%Qc] (unit_layer true "zero")).
Proof.
  apply (hidden_first_call_as_zero_state (E := reference_env)
           (unit_layer true "zero") [1%Qc] (T [half]) sentinel sentinel sentinel).
  - reflexivity.
  - reflexivity.
  - reflexivity.
  - reflexivity.
  - reflexivity.
Defined.

Lemma first_explicit_step_zero_trace_witness :
  exists b',
    _b_state_function (unit_layer false "zero") (zeros_like [1%Qc]) (zeros_like [1%Qc])
    = Return b'
    /\ size0 b' = length [1%Qc]
    /\ (forall i, (i < length [1%Qc])%nat -> elem b' i = 0%Qc)
    /\ (forall r final,
          forward (E := reference_env) [1%Qc] sentinel sentinel (T [half])
            (unit_layer false "zero") = (Return r, final) ->
          exists spk' mem', r = Spk_mem_b spk' mem' b').
Proof.
  apply (first_explicit_step_zero_trace (E := reference_env)
           (unit_layer false "zero") [1%Qc] sentinel sentinel (T [half])).
  - reflexivity.
  - reflexivity.
Defined.

(** ** Without reset *)

Section NoReset.

Context {E : Env}.

(** X17: under the policy without reset the potential an explicit step returns
    is the (quantised) base integration of its arguments: neither the reset
    signal the base class computes, nor the trace, nor the threshold
    enters it. *)
Theorem no_reset_step_potential
  (self : LLeaky) (input_ : tensor) (spk mem b : pyval)
  (recurrent : Recurrent) (fed : pyval) (n : nat) :
  self_init_hidden self = false ->
  self_reset_mechanism_val self = 2%Z ->
  hasattr_init_flag spk = false -> hasattr_init_flag mem = false ->
  is_False mem = false ->
  self_recurrent self = Some recurrent ->
  recurrent_call recurrent spk = Return fed ->
  length input_ = n -> size0 spk = n -> size0 mem = n -> size0 b = n ->
  size0 fed = n ->
  length (self_beta self) = n \/ length (self_beta self) = 1%nat ->
  length (self_threshold self) = n \/ length (self_threshold self) = 1%nat ->
  exists base spk' b' final,
    _base_state_function self input_ spk mem = Return base /\
    forward input_ spk mem b self
    = (Return (Spk_mem_b spk' (apply_state_quant self base) b'), final) /\
    forall i, (i < n)%nat ->
      elem base i = (beta_eff self i * elem mem i
                     + (1 - beta_eff self i) * (at_ input_ i + elem fed i))%Qc.
Proof.
  intros Hh Hval Hfs Hfm Hmem Hrec Hfed Hin Sspk Smem Sb Sfed Hbeta Hth.
  destruct (b_state_function_returns self spk b n Sspk Sb) as (b' & Hb' & _ & Sb').
  destruct (get_new_thresh_returns self b' n Sb' Hth) as (thresh & Hthresh & _ & _).
  destruct (base_state_function_returns self input_ spk mem recurrent fed n)
    as (base & Hbase & _ & Sbase); try assumption.
  set (self' := set_reset (alif_mem_reset self mem b' thresh) self).
  exists base.
  exists (if self_inhibition self'
          then alif_fire_inhibition self' (size0 (apply_state_quant self' base))
                 (apply_state_quant self' base) (Some thresh)
          else alif_fire self' (apply_state_quant self' base) (Some thresh) (Some b')).
  exists b', self'.
  split; [exact Hbase |]. split.
  - unfold forward, forward_init. rewrite Hfs, Hfm, Hmem. simpl.
    rewrite (bind_step _ _ self self (spk, mem, b)) by reflexivity.
    rewrite (bind_step _ _ self self self) by reflexivity.
    rewrite Hh. simpl. unfold forward_explicit.
    rewrite (bind_step _ _ self self b') by (unfold reading; now rewrite Hb').
    rewrite (bind_step _ _ self self thresh) by (unfold reading; now rewrite Hthresh).
    rewrite (bind_step _ _ self self self) by reflexivity.
    rewrite (bind_step _ _ self self' tt) by reflexivity.
    assert (Hbuild : _build_state_function self' input_ spk mem thresh = Return base).
    { unfold _build_state_function.
      change (self_reset_mechanism_val self') with (self_reset_mechanism_val self).
      rewrite Hval. simpl. exact Hbase. }
    rewrite (bind_step _ _ self' self' base) by (unfold reading; now rewrite Hbuild).
    rewrite (bind_step _ _ self' self' self') by reflexivity.
    reflexivity.
  - intros i Hi.
    destruct (base_state_function_elem _ _ _ _ _ Hbase) as (r' & fed' & Hr' & Hf' & Hel).
    assert (r' = recurrent) by congruence. subst r'.
    assert (fed' = fed) by congruence. subst fed'.
    apply Hel. apply covers_lt. lia.
Qed.

End NoReset.

Lemma no_reset_step_potential_witness :
  exists base spk' b' final,
    _base_state_function (E := reference_env) (unit_layer false "none")
      [1%Qc] (T [1%Qc]) (T [half]) = Return base /\
    forward (E := reference_env) [1%Qc] (T [1%Qc]) (T [half]) (T [0%Qc])
      (unit_layer false "none")
    = (Return (Spk_mem_b spk' (apply_state_quant (unit_layer false "none") base) b'),
       final) /\
    forall i, (i < 1)%nat ->
      elem base i = (beta_eff (unit_layer false "none") i * elem (T [half]) i
                     + (1 - beta_eff (unit_layer false "none") i)
                       * (at_ [1%Qc] i + elem (T [0%Qc]) i))%Qc.
Proof.
  apply (no_reset_step_potential (E := reference_env) (unit_layer false "none")
           [1%Qc] (T [1%Qc]) (T [half]) (T [0%Qc])
           (RecurrentOneToOne [0%Qc]) (T [0%Qc]) 1).
  - reflexivity.
  - reflexivity.
  - reflexivity.
  - reflexivity.
  - reflexivity.
  - reflexivity.
  - qc_eq.
  - reflexivity.
  - reflexivity.
  - reflexivity.
  - reflexivity.
  - reflexivity.
  - left. reflexivity.
  - left. reflexivity.
Defined.

(** ** The broadcast reset *)



Section ResetHidden.

Context {E : Env}.





End ResetHidden.





(** The stepped unit layer after the reset: spike and potential, which
    were 1, and the trace are the zero tensor of one unit, as after the
    first pass of the first call. *)
Lemma reset_hidden_stepped_layer :
  let layer' := set_mem (T [0%Qc]) (set_spk (T [0%Qc]) (stepped_layer "zero")) in
  self_spk (stepped_layer "zero") = Some (T [1%Qc])
  /\ self_mem (stepped_layer "zero") = Some (T [1%Qc])
  /\ reset_hidden (E := reference_env) [LLeaky_instance (stepped_layer "zero")]
     = [LLeaky_instance layer']
  /\ self_b layer' = Some (T [0%Qc])
  /\ self_b (converted [1%Qc] (unit_layer true "zero")) = Some (T [0%Qc]).
Proof.
  split; [reflexivity |]. split; [qc_eq |]. split; [| split; reflexivity].
  vm_compute. reflexivity.
Qed.

(** With the deferred reading of [init_rleaky] the reset leaves the
    sentinel in spike and potential, the trace being the zeros of the first
    pass, and the first pass of the next call stores zeros shaped like its
    input in all three. *)
Lemma reset_hidden_deferred :
  let stepped :=
    snd (forward (E := deferred_env) [1%Qc] PyFalse PyFalse PyFalse
           (unit_layer true "zero")) in
  let layer' := set_mem sentinel (set_spk sentinel stepped) in
  reachable (E := deferred_env) stepped
  /\ reset_hidden (E := deferred_env) [LLeaky_instance stepped]
     = [LLeaky_instance layer']
  /\ self_b layer' = Some (T [0%Qc])
  /\ snd (forward_init [1%Qc; 1%Qc] PyFalse PyFalse PyFalse layer')
     = converted [1%Qc; 1%Qc] layer'
  /\ self_b (converted [1%Qc; 1%Qc] layer') = Some (T [0%Qc; 0%Qc]).
Proof.
  split; [| split; [| split; [| split]]].
  - apply (reach_forward (E := deferred_env)).
    apply (reach_constructed (E := deferred_env) (unit_args true "zero")).
    + vm_compute. reflexivity.
    + vm_compute. reflexivity.
  - vm_compute. reflexivity.
  - vm_compute. reflexivity.
  - vm_compute. reflexivity.
  - vm_compute. reflexivity.
Qed.
